(** * autodoc: markdown tables for record types, markdown transcripts for
    HTTP exchanges

    A shallow embedding of the Go package [autodoc]: the struct-table
    renderer ([Markdown.WriteStructTable] and its helpers) and the recording
    transport ([TransportMarkdownRecorder.RoundTrip] and its helpers),
    followed by the properties of the package's specification.

    Conventions of the embedding:
    - a Go [string] is a [string] (a sequence of bytes);
    - a Go [error] is the text of its message, [nil] is [None];
    - an [io.Writer] is an interface, hence a type class [Writer]: the state
      of the destination is threaded explicitly and every [Write] returns the
      next state together with its error;
    - [fmt.Fprintf] formats its whole output first and hands it to the
      destination in one [Write]. *)

From Stdlib Require Import Ascii.
From stdpp Require Import base option list sorting strings gmap fin_maps.

Set Default Proof Using "Type".

(** ** Errors and destinations *)

Definition error : Type := string.

(** [io.Writer]: [Write w p] is the state after the call and the error it
    returned.  Nothing is assumed about a destination: it may fail at any
    call and may have consumed part of [p] when it does. *)
Class Writer (W : Type) := Write : W → string → W * option error.

(** Line feed and carriage return, the two control bytes of the formats. *)
Definition LF : string := String "010"%char "".
Definition CR : ascii := "013"%char.

(** ** Helpers of Go's standard library used by the package *)

(** [strings.Split(s, sep)] for a one-byte separator: the pieces between the
    separators, always at least one piece. *)
Fixpoint Split (s : string) (sep : ascii) : list string :=
  match s with
  | EmptyString => [EmptyString]
  | String c s' =>
      if Ascii.eqb c sep then EmptyString :: Split s' sep
      else match Split s' sep with
           | piece :: rest => String c piece :: rest
           | [] => [String c EmptyString]
           end
  end.

(** [strings.Join(elems, sep)]. *)
Fixpoint Join (elems : list string) (sep : string) : string :=
  match elems with
  | [] => ""
  | [x] => x
  | x :: rest => x +:+ sep +:+ Join rest sep
  end.

(** [contains] of the package: membership in a slice of strings. *)
Fixpoint contains (array : list string) (element : string) : bool :=
  match array with
  | [] => false
  | elt :: rest => if String.eqb elt element then true else contains rest element
  end.

(** ** Reflection: types, fields and tags *)

(** [reflect.Kind], split by what a type of that kind carries: the kinds
    without an element type, and the five kinds on which [Elem()] is defined.
    The remaining kind, [Struct], is the third constructor of [rtype]. *)
Inductive ScalarKind :=
  | Bool | Int | Int8 | Int16 | Int32 | Int64
  | Uint | Uint8 | Uint16 | Uint32 | Uint64 | Uintptr
  | Float32 | Float64 | Complex64 | Complex128
  | Func | Interface | String_ | UnsafePointer.

Inductive ElemKind := Array | Chan | Map | Ptr | Slice.

(** [reflect.StructTag], given by its [key:"value"] pairs in the order they
    are written. *)
Definition StructTag : Type := list (string * string).

(** [StructTag.Lookup]: the value of the first pair with that key. *)
Fixpoint Lookup (tag : StructTag) (key : string) : option string :=
  match tag with
  | [] => None
  | (k, v) :: rest => if String.eqb k key then Some v else Lookup rest key
  end.

(** [StructTag.Get]: [Lookup], with the empty string for a missing key. *)
Definition Get (tag : StructTag) (key : string) : string :=
  match Lookup tag key with
  | Some v => v
  | None => ""
  end.

(** [reflect.Type] as a finite tree, and [reflect.StructField].  The name of a
    type is empty when the type is not a defined (named) type. *)
Inductive rtype :=
  | Scalar (k : ScalarKind) (name : string)
  | Composite (k : ElemKind) (name : string) (elem : rtype)
  | StructOf (name : string) (fields : list StructField)
with StructField :=
  | mkField (Name : string) (Type_ : rtype) (Tag : StructTag).

(** [Type.Name()]. *)
Definition type_name (t : rtype) : string :=
  match t with
  | Scalar _ n => n
  | Composite _ n _ => n
  | StructOf n _ => n
  end.

Definition Name (f : StructField) : string := let 'mkField n _ _ := f in n.
Definition Type_ (f : StructField) : rtype := let 'mkField _ t _ := f in t.
Definition Tag (f : StructField) : StructTag := let 'mkField _ _ g := f in g.

(** How a call ends: it returns its [error] result, or it panics (here only
    [Type.Elem()] on a type without an element type). *)
Inductive completion :=
  | Return (err : option error)
  | Panic.

(** ** The struct-table renderer (type [Markdown]) *)

(** [Markdown.structFieldName]. *)
Definition structFieldName (f : StructField) (parts : list string) : string :=
  match parts with
  | p0 :: _ =>
      if negb (String.eqb p0 "") && negb (String.eqb p0 "-") then p0 else Name f
  | [] => Name f
  end.

(** [Markdown.structFieldType]: the text of the type cell, or an error. *)
Fixpoint structFieldType (t : rtype) (parts : list string) : string * option error :=
  match t with
  | Scalar Bool _ => ("bool", None)
  | Scalar (Int | Int8 | Int16 | Int32 | Int64
           | Uint | Uint8 | Uint16 | Uint32 | Uint64
           | Float32 | Float64) _ => ("number", None)
  | Composite (Array | Slice) _ _ => ("Array", None)
  | Composite Ptr _ elem => structFieldType elem parts
  | Scalar String_ _ => ("string", None)
  | StructOf name _ =>
      if String.eqb name "" || contains parts "embed" then ("Object", None)
      else (name, None)
  | _ => ("", Some ("unsupported field type " +:+ type_name t))
  end.

(** [Markdown.structFieldAttributes]. *)
Definition structFieldAttributes (readonly optional : bool) : string :=
  let result := [] in
  let result := if readonly then result ++ ["readonly"] else result in
  let result := if optional then result ++ ["optional"] else result in
  match result with
  | [] => ""
  | _ => "(" +:+ Join result " " +:+ ")"
  end.

(** [Markdown.structDescription]. *)
Definition structDescription (f : StructField) : string := Get (Tag f) "help".

(** The first lines of [writeStructField]: the tag that carries the name and
    the flags, and its comma-separated parts. *)
Definition field_tag (f : StructField) : string :=
  match Lookup (Tag f) "doc" with
  | Some tag => tag
  | None => Get (Tag f) "json"
  end.

Definition field_parts (f : StructField) : list string := Split (field_tag f) ",".

(** The row that [writeStructField] formats:
    [Fprintf(w, "| %s | %s %s | %s |\n", name, sType, attribs, description)]. *)
Definition format_row (name sType attribs description : string) : string :=
  "| " +:+ name +:+ " | " +:+ sType +:+ " " +:+ attribs +:+ " | " +:+
  description +:+ " |" +:+ LF.

Section Table.
Context {W : Type} `{Writer W}.

(** [Markdown.writeStructFields] and [Markdown.writeStructField].  The loop
    [for v.Kind() != reflect.Struct { v = v.Elem() }] is the recursion on
    [Composite]; [Elem()] panics on a scalar type. *)
Fixpoint writeStructFields (namePrefix : string) (v : rtype) (w : W)
    {struct v} : W * completion :=
  match v with
  | Scalar _ _ => (w, Panic)
  | Composite _ _ elem => writeStructFields namePrefix elem w
  | StructOf _ fields =>
      (fix each (fs : list StructField) (w : W) {struct fs} : W * completion :=
         match fs with
         | [] => (w, Return None)
         | f :: rest =>
             match writeStructField namePrefix f w with
             | (w', Return None) => each rest w'
             | stopped => stopped
             end
         end) fields w
  end
with writeStructField (namePrefix : string) (f : StructField) (w : W)
    {struct f} : W * completion :=
  match f with
  | mkField _ ftype _ =>
      let parts := field_parts f in
      let name := namePrefix +:+ structFieldName f parts in
      match structFieldType ftype parts with
      | (_, Some err) => (w, Return (Some err))
      | (sType, None) =>
          let description := structDescription f in
          let attribs :=
            structFieldAttributes (contains parts "readonly")
                                  (contains parts "omitempty") in
          match Write w (format_row name sType attribs description) with
          | (w', None) =>
              if String.eqb sType "Object" then
                writeStructFields (name +:+ ".") ftype w'
              else if String.eqb sType "Array" then
                writeStructFields (name +:+ "[].") ftype w'
              else (w', Return None)
          | (w', Some err) => (w', Return (Some err))
          end
      end
  end.

(** The table header of [WriteStructTable]. *)
Definition table_header : string :=
  LF +:+ "| Field | Type | Description |" +:+ LF +:+
  "| ----- | ---- | ----------- |" +:+ LF.

(** The loop [for t.Kind() == reflect.Ptr { t = t.Elem() }]. *)
Fixpoint unwrap_pointers (t : rtype) : rtype :=
  match t with
  | Composite Ptr _ elem => unwrap_pointers elem
  | _ => t
  end.

(** [Markdown.WriteStructTable], on the type of its argument. *)
Definition WriteStructTable (t : rtype) (w : W) : W * completion :=
  let t := unwrap_pointers t in
  match Write w table_header with
  | (w', Some err) => (w', Return (Some err))
  | (w', None) => writeStructFields "" t w'
  end.
End Table.

(** ** The recording transport (type [TransportMarkdownRecorder]) *)

(** [strings.ReplaceAll(s, old, new)] for a one-byte [old]. *)
Fixpoint ReplaceAll (s : string) (old : ascii) (new : string) : string :=
  match s with
  | EmptyString => ""
  | String c s' =>
      if Ascii.eqb c old then new +:+ ReplaceAll s' old new
      else String c (ReplaceAll s' old new)
  end.

(** The letter case of ASCII: an upper-case ASCII letter becomes the
    lower-case one, every other byte is kept.  [ToLower] is the text with
    its ASCII letters in lower case; two texts with the same [ToLower]
    differ in nothing but the case of ASCII letters. *)
Definition fold_byte (c : ascii) : ascii :=
  let n := nat_of_ascii c in
  if (65 <=? n)%nat && (n <=? 90)%nat then ascii_of_nat (n + 32) else c.

Fixpoint ToLower (s : string) : string :=
  match s with
  | EmptyString => ""
  | String c s' => String (fold_byte c) (ToLower s')
  end.

(** [strings.EqualFold]: equality of two texts under Unicode simple case
    folding.  The folding tables belong to Go's [unicode] package, not to
    this one, so the function is a parameter.  One fact about it is used:
    it compares rune by rune and an ASCII letter folds to its other case,
    so two texts that differ only in the case of ASCII letters are equal
    under folding.  (It equates more: the sign U+212A with [K], for one.) *)
Class CaseFolding := {
  EqualFold : string → string → bool;
  EqualFold_ASCII_case : ∀ s t, ToLower s = ToLower t → EqualFold s t = true
}.

(** [HeadersSkipper]: an interface with the one method
    [SkipHeaders(header string, value []string) bool]. *)
Definition HeadersSkipper : Type := string → list string → bool.

(** [SkipHeaders.SkipHeaders]: the implementation for a fixed list. *)
Fixpoint SkipHeaders `{CaseFolding} (s : list string) (header : string)
    (value : list string) : bool :=
  match s with
  | [] => false
  | hdr :: rest => if EqualFold hdr header then true else SkipHeaders rest header value
  end.

(** [http.Header] is [map[string][]string]. *)
Abbreviation Header := (gmap string (list string)).

(** A body is an [io.ReadCloser], a reference to a stream object.  A stream
    holds the bytes it has not delivered yet, the error it ends with instead
    of end-of-file (if any), and whether it has been closed. *)
Record Stream := mkStream {
  pending : string;
  fault : option error;
  closed : bool
}.

(** [ioutil.ReadAll]: all bytes up to end-of-file or the first error; the
    stream is left drained. *)
Definition ReadAll (s : Stream) : Stream * (string * option error) :=
  (mkStream "" (fault s) (closed s), (pending s, fault s)).

Definition Close (s : Stream) : Stream := mkStream (pending s) (fault s) true.

(** [ioutil.NopCloser(strings.NewReader(data))]. *)
Definition NewReader (data : string) : Stream := mkStream data None false.

(** The stream objects of the program, by address; a body field holds an
    address or [nil]. *)
Abbreviation Streams := (list Stream).

Definition deref (h : Streams) (a : nat) : Stream := default (NewReader "") (h !! a).

Record Request := mkRequest {
  Method : string;
  RequestURI : string;            (* req.URL.RequestURI() *)
  ReqHeader : Header;
  ReqBody : option nat
}.

Record Response := mkResponse {
  Proto : string;
  Status : string;
  ResHeader : Header;
  ResBody : option nat
}.

(** [http.RoundTripper]: the wrapped transport sees the request and the
    stream objects (it reads the request body and creates the response body)
    and returns a response or an error, as its contract requires. *)
Inductive RoundTripResult :=
  | Responded (resp : Response)
  | Failed (err : error).

Definition RoundTripper : Type := Streams → Request → Streams * RoundTripResult.

(** What the package takes from [net/http] without defining it: which field
    names [Header.WriteSubset] writes, how it cleans a value before writing
    it, and [http.DefaultTransport]. *)
Class NetHTTP := {
  ValidHeaderFieldName : string → bool;
  headerValue : string → string;
  DefaultTransport : RoundTripper
}.

Record TransportMarkdownRecorder := mkRecorder {
  Underlying : option RoundTripper;
  Skipper : option HeadersSkipper;          (* the field SkipHeaders *)
  RequestPreamble : string;
  RequestPostamble : string;
  ResponsePreamble : string;
  ResponsePostamble : string
}.

(** [WithRequestInfo], [WithResponseInfo], [WithSkipHeaders]. *)
Definition WithRequestInfo (t : TransportMarkdownRecorder) (preamble postamble : string) :=
  mkRecorder (Underlying t) (Skipper t) preamble postamble
             (ResponsePreamble t) (ResponsePostamble t).

Definition WithResponseInfo (t : TransportMarkdownRecorder) (preamble postamble : string) :=
  mkRecorder (Underlying t) (Skipper t) (RequestPreamble t) (RequestPostamble t)
             preamble postamble.

Definition WithSkipHeaders `{CaseFolding} (t : TransportMarkdownRecorder)
    (skip : list string) :=
  mkRecorder (Underlying t) (Some (SkipHeaders skip)) (RequestPreamble t)
             (RequestPostamble t) (ResponsePreamble t) (ResponsePostamble t).

(** [TransportMarkdownRecorder.skipHeaders]: [None] is the nil map. *)
Definition skipHeaders (t : TransportMarkdownRecorder) (h : Header)
    : option (gmap string bool) :=
  match Skipper t with
  | None => None
  | Some skipper =>
      Some (foldr (λ kv result, if skipper kv.1 kv.2 then <[kv.1 := true]> result
                                else result)
                  ∅ (map_to_list h))
  end.

(** [exclude[k]] on a possibly nil map. *)
Definition excluded (exclude : option (gmap string bool)) (k : string) : bool :=
  match exclude with
  | None => false
  | Some m => default false (m !! k)
  end.

(** [Header.sortedKeyValues]: the entries that are not excluded, by key. *)
Definition sortedKeyValues (h : Header) (exclude : option (gmap string bool))
    : list (string * list string) :=
  merge_sort (λ a b, String.le a.1 b.1)
             (filter (λ kv, excluded exclude kv.1 = false) (map_to_list h)).

Section Headers.
Context `{NetHTTP}.

(** The lines of one entry: [key: value\r\n] for each value. *)
Definition entry_lines (kv : string * list string) : list string :=
  if ValidHeaderFieldName kv.1
  then map (λ v, kv.1 +:+ ": " +:+ headerValue v +:+ String CR LF) kv.2
  else [].

(** The lines [Header.WriteSubset] writes, in order. *)
Definition header_lines (h : Header) (exclude : option (gmap string bool))
    : list string :=
  concat (map entry_lines (sortedKeyValues h exclude)).

(** [Header.WriteSubset] into a [strings.Builder], which never fails: the
    text built. *)
Definition WriteSubset (h : Header) (exclude : option (gmap string bool)) : string :=
  foldr String.app "" (header_lines h exclude).
End Headers.

Section Recorder.
Context {W : Type} `{Writer W} `{NetHTTP}.

(** What a call of the recorder acts on: the destination [t.Writer], the
    stream objects, and the requests handed to the wrapped transport so far
    (kept so that a call of the transport can be told from its absence). *)
Record World := mkWorld {
  sink : W;
  streams : Streams;
  issued : list Request
}.

(** One [Write] on the destination of the world. *)
Definition write (σ : World) (p : string) : World * option error :=
  let '(w', err) := Write (sink σ) p in
  (mkWorld w' (streams σ) (issued σ), err).

(** [TransportMarkdownRecorder.writeBody].  The argument [r] is the content
    of the body field the Go function gets a pointer to; the result carries
    the content of that field on return. *)
Definition writeBody (σ : World) (r : option nat) : World * option nat * option error :=
  match r with
  | None => (σ, r, None)
  | Some a =>
      let '(drained, (data, err)) := ReadAll (deref (streams σ) a) in
      let σ := mkWorld (sink σ) (<[a := drained]> (streams σ)) (issued σ) in
      match err with
      | Some _ => (σ, r, err)
      | None =>
          match write σ data with
          | (σ, Some err2) => (σ, r, err)
          | (σ, None) =>
              let σ := mkWorld (sink σ) (<[a := Close drained]> (streams σ)) (issued σ) in
              let fresh := length (streams σ) in
              (mkWorld (sink σ) (streams σ ++ [NewReader data]) (issued σ),
               Some fresh, None)
          end
      end
  end.

(** The opening and the closing of a fenced block. *)
Definition fence_open : string := "```" +:+ LF.
Definition fence_close : string := LF +:+ "```" +:+ LF.

(** [TransportMarkdownRecorder.recordRequest]; the request is returned with
    the body field as the call leaves it. *)
Definition recordRequest (t : TransportMarkdownRecorder) (σ : World) (req : Request)
    : World * Request * option error :=
  match write σ (RequestPreamble t) with
  | (σ, Some err) => (σ, req, Some err)
  | (σ, None) =>
  match write σ (fence_open +:+ Method req +:+ " " +:+ RequestURI req +:+ LF) with
  | (σ, Some err) => (σ, req, Some err)
  | (σ, None) =>
  let buf := WriteSubset (ReqHeader req) (skipHeaders t (ReqHeader req)) in
  let headers := ReplaceAll buf CR "" in
  match write σ (headers +:+ LF) with
  | (σ, Some err) => (σ, req, Some err)
  | (σ, None) =>
  let '(σ, body, err) := writeBody σ (ReqBody req) in
  let req := mkRequest (Method req) (RequestURI req) (ReqHeader req) body in
  match err with
  | Some err => (σ, req, Some err)
  | None =>
  match write σ fence_close with
  | (σ, Some err) => (σ, req, Some err)
  | (σ, None) =>
  match write σ (RequestPostamble t) with
  | (σ, Some err) => (σ, req, Some err)
  | (σ, None) => (σ, req, None)
  end end end end end end.

(** [TransportMarkdownRecorder.recordResponse]. *)
Definition recordResponse (t : TransportMarkdownRecorder) (σ : World) (res : Response)
    : World * Response * option error :=
  match write σ (ResponsePreamble t) with
  | (σ, Some err) => (σ, res, Some err)
  | (σ, None) =>
  match write σ (fence_open +:+ Proto res +:+ " " +:+ Status res +:+ LF) with
  | (σ, Some err) => (σ, res, Some err)
  | (σ, None) =>
  let buf := WriteSubset (ResHeader res) (skipHeaders t (ResHeader res)) in
  let headers := ReplaceAll buf CR "" in
  match write σ (headers +:+ LF) with
  | (σ, Some err) => (σ, res, Some err)
  | (σ, None) =>
  let '(σ, body, err) := writeBody σ (ResBody res) in
  let res := mkResponse (Proto res) (Status res) (ResHeader res) body in
  match err with
  | Some err => (σ, res, Some err)
  | None =>
  match write σ fence_close with
  | (σ, Some err) => (σ, res, Some err)
  | (σ, None) =>
  match write σ (ResponsePostamble t) with
  | (σ, Some err) => (σ, res, Some err)
  | (σ, None) => (σ, res, None)
  end end end end end end.

(** [TransportMarkdownRecorder.transport]. *)
Definition transport (t : TransportMarkdownRecorder) : RoundTripper :=
  match Underlying t with
  | Some underlying => underlying
  | None => DefaultTransport
  end.

(** [TransportMarkdownRecorder.RoundTrip]: the world and the request as the
    call leaves them, and the pair of response and error it returns. *)
Definition RoundTrip (t : TransportMarkdownRecorder) (σ : World) (req : Request)
    : World * Request * (option Response * option error) :=
  match recordRequest t σ req with
  | (σ, req, Some err) => (σ, req, (None, Some err))
  | (σ, req, None) =>
      let '(objects, result) := transport t (streams σ) req in
      let σ := mkWorld (sink σ) objects (issued σ ++ [req]) in
      match result with
      | Failed err => (σ, req, (None, Some err))
      | Responded resp =>
          match recordResponse t σ resp with
          | (σ, _, Some err) => (σ, req, (None, Some err))
          | (σ, resp, None) => (σ, req, (Some resp, None))
          end
      end
  end.
End Recorder.

Arguments World W : clear implicits.

(** ** Concrete destinations and platform, for closed instances *)

(** An in-memory destination: the chunks accepted so far, one per [Write],
    and the errors of the coming calls ([None] for a call that succeeds;
    once the list is used up every call succeeds).  A call that fails
    accepts nothing. *)
Record Tape := mkTape {
  written : list string;
  script : list (option error)
}.

#[global] Instance Tape_Writer : Writer Tape := λ w p,
  match script w with
  | Some e :: rest => (mkTape (written w) rest, Some e)
  | None :: rest => (mkTape (written w ++ [p]) rest, None)
  | [] => (mkTape (written w ++ [p]) [], None)
  end.

(** A destination that accepts everything, and one whose [n]-th coming call
    (counted from 0) fails with [e]. *)
Definition blank : Tape := mkTape [] [].
Definition failing_at (n : nat) (e : error) : Tape := mkTape [] (replicate n None ++ [Some e]).

(** [httpguts.ValidHeaderFieldName]: a non-empty sequence of token bytes. *)
Definition is_token_byte (c : ascii) : bool :=
  let n := nat_of_ascii c in
  ((48 <=? n) && (n <=? 57) || (65 <=? n) && (n <=? 90) || (97 <=? n) && (n <=? 122))%nat
  || bool_decide (c ∈ ["!"; "#"; "$"; "%"; "&"; "'"; "*"; "+"; "-"; "."; "^"; "_"; "`"; "|"; "~"]%char).

Fixpoint all_token_bytes (s : string) : bool :=
  match s with
  | EmptyString => true
  | String c s' => is_token_byte c && all_token_bytes s'
  end.

Definition valid_field_name (s : string) : bool :=
  negb (String.eqb s "") && all_token_bytes s.

(** [textproto.TrimString] after the replacement of line breaks by spaces. *)
Definition is_blank (c : ascii) : bool :=
  bool_decide (c ∈ [" "; "009"; "010"; "013"]%char).

Fixpoint trim_left (s : string) : string :=
  match s with
  | String c s' => if is_blank c then trim_left s' else s
  | EmptyString => ""
  end.

Definition trim (s : string) : string :=
  String.rev (trim_left (String.rev (trim_left s))).

Definition clean_value (v : string) : string :=
  trim (ReplaceAll (ReplaceAll v "010"%char " ") CR " ").

(** A comparison for the closed instances: equality byte by byte up to the
    case of ASCII letters.  On texts of ASCII bytes, such as the header
    names of the instances below, it is [strings.EqualFold]. *)
Fixpoint equal_ascii_fold (s t : string) : bool :=
  match s, t with
  | EmptyString, EmptyString => true
  | String a s', String b t' =>
      Ascii.eqb (fold_byte a) (fold_byte b) && equal_ascii_fold s' t'
  | _, _ => false
  end.

#[global] Instance ascii_folding : CaseFolding.
Proof.
  refine {| EqualFold := equal_ascii_fold |}.
  intros s. induction s as [|a s IH]; intros [|b t]; simpl; try done.
  intros [= Hab Hst]. rewrite Hab, Ascii.eqb_refl. simpl. by apply IH.
Defined.

(** A transport that reaches nothing. *)
Definition unreachable : RoundTripper := λ objects _, (objects, Failed "unreachable").

#[global] Instance go_http : NetHTTP := {|
  ValidHeaderFieldName := valid_field_name;
  headerValue := clean_value;
  DefaultTransport := unreachable
|}.

(** ** The specification's reading of the renderer *)

(** The first element of a comma-separated list: what precedes the first
    comma. *)
Fixpoint before_comma (s : string) : string :=
  match s with
  | EmptyString => ""
  | String c s' => if Ascii.eqb c "," then "" else String c (before_comma s')
  end.

(** The attribute text for the two flags, case by case. *)
Definition attributes_text (readonly optional : bool) : string :=
  match readonly, optional with
  | true, true => "(readonly optional)"
  | true, false => "(readonly)"
  | false, true => "(optional)"
  | false, false => ""
  end.

(** A row in which the attribute text and the space before it are left out
    when there is no attribute. *)
Definition row_without_gap (name sType attribs description : string) : string :=
  "| " +:+ name +:+ " | " +:+ sType +:+
  (if String.eqb attribs "" then "" else " " +:+ attribs) +:+
  " | " +:+ description +:+ " |" +:+ LF.

(** The row of a field, given the text of its type cell. *)
Definition field_row (namePrefix : string) (f : StructField) (sType : string) : string :=
  format_row (namePrefix +:+ structFieldName f (field_parts f)) sType
             (structFieldAttributes (contains (field_parts f) "readonly")
                                    (contains (field_parts f) "omitempty"))
             (structDescription f).

(** The rows of a type in declaration order, depth first: the row of a field,
    then, when its type cell reads [Object] or [Array], the rows of the
    fields below it under the longer prefix, then the rows of the next
    field. *)
Fixpoint struct_rows (namePrefix : string) (v : rtype) {struct v} : list string :=
  match v with
  | Scalar _ _ => []
  | Composite _ _ elem => struct_rows namePrefix elem
  | StructOf _ fields =>
      (fix each (fs : list StructField) : list string :=
         match fs with
         | [] => []
         | f :: rest => field_rows namePrefix f ++ each rest
         end) fields
  end
with field_rows (namePrefix : string) (f : StructField) {struct f} : list string :=
  match f with
  | mkField _ ftype _ =>
      let name := namePrefix +:+ structFieldName f (field_parts f) in
      let sType := (structFieldType ftype (field_parts f)).1 in
      field_row namePrefix f sType ::
        (if String.eqb sType "Object" then struct_rows (name +:+ ".") ftype
         else if String.eqb sType "Array" then struct_rows (name +:+ "[].") ftype
         else [])
  end.

(** Writing a list of chunks one after the other, up to the first failure. *)
Fixpoint write_all {W : Type} `{Writer W} (w : W) (chunks : list string) : W * option error :=
  match chunks with
  | [] => (w, None)
  | c :: rest =>
      match Write w c with
      | (w', None) => write_all w' rest
      | stopped => stopped
      end
  end.

(** ** Inputs of the closed instances *)

(** [struct { Hello uint; World string }], unnamed. *)
Definition pair_type : rtype :=
  StructOf "" [mkField "Hello" (Scalar Uint "uint") [];
               mkField "World" (Scalar String_ "string") []].

(** The record of the package's example test. *)
Definition example_type : rtype :=
  Composite Ptr "" (StructOf "" [
    mkField "Hello" (Scalar String_ "string") [("help", "hello is a fine field")];
    mkField "World" (Scalar Int "int") [];
    mkField "Obj" (Composite Ptr "" pair_type) [("help", "nested field")];
    mkField "Array" (Composite Slice "" pair_type) [("help", "array field")]]).

(** [type Inner struct { X int }] and a field [In *Inner] of that type. *)
Definition Inner : rtype := StructOf "Inner" [mkField "X" (Scalar Int "int") []].
Definition inner_field : StructField := mkField "In" (Composite Ptr "" Inner) [].

(** [type Object struct { X int }] and a field [O Object]. *)
Definition Object : rtype := StructOf "Object" [mkField "X" (Scalar Int "int") []].
Definition object_field : StructField := mkField "O" Object [].

(** [Hello string] without a tag, and [ID int64] tagged
    [json:"id,readonly,omitempty"]. *)
Definition plain_field : StructField := mkField "Hello" (Scalar String_ "string") [].
Definition tagged_field : StructField :=
  mkField "ID" (Scalar Int64 "int64") [("json", "id,readonly,omitempty")].

(** A transport that answers every request with [200 OK] and the body
    [done], held by a stream object it creates. *)
Definition server : RoundTripper := λ objects _,
  (objects ++ [NewReader "done"],
   Responded (mkResponse "HTTP/1.1" "200 OK"
                         {[ "Content-Length" := ["4"]; "Date" := ["today"] ]}
                         (Some (length objects)))).

(** The recorder of the package's example test, around [server]. *)
Definition recorder : TransportMarkdownRecorder :=
  WithResponseInfo
    (WithRequestInfo
       (WithSkipHeaders (mkRecorder (Some server) None "" "" "" "") ["Date"])
       ("## Request" +:+ LF) ("that was the request" +:+ LF))
    ("## Response" +:+ LF) ("that was the response" +:+ LF).

(** [GET /x] with two headers and the body [abc], held by the stream object
    at address 0. *)
Definition example_headers : Header :=
  {[ "Content-Type" := ["application/json"]; "DATE" := ["today"] ]}.

Definition example_request : Request :=
  mkRequest "GET" "/x" example_headers (Some 0).

Definition world_with (w : Tape) : World Tape := mkWorld w [NewReader "abc"] [].

(** ** Further notions for the properties of the walk and of the transcript *)

(** The type reached by following [Elem()] for as long as there is one. *)
Fixpoint innermost (t : rtype) : rtype :=
  match t with
  | Composite _ _ elem => innermost elem
  | _ => t
  end.

(** The text of the type cell of a field. *)
Definition cell (f : StructField) : string :=
  (structFieldType (Type_ f) (field_parts f)).1.

(** A field that is rendered as one row and nothing below it: its type is
    supported and its type cell reads neither [Object] nor [Array]. *)
Definition single_row_field (f : StructField) : bool :=
  match structFieldType (Type_ f) (field_parts f) with
  | (sType, None) => negb (String.eqb sType "Object") && negb (String.eqb sType "Array")
  | (_, Some _) => false
  end.

(** ** Further inputs of the closed instances *)

(** [Tags []string], [Index map[string]int] and [Done bool] tagged
    [doc:"readonly"]. *)
Definition tags_field : StructField :=
  mkField "Tags" (Composite Slice "" (Scalar String_ "string")) [].
Definition index_field : StructField :=
  mkField "Index" (Composite Map "" (Scalar Int "int")) [].
Definition done_field : StructField :=
  mkField "Done" (Scalar Bool "bool") [("doc", "readonly")].

(** [GET /x] without a body, a recorder without filter, texts or transport of
    its own, and a world whose only stream breaks off with [reset] after the
    bytes [ab]. *)
Definition bodyless_request : Request := mkRequest "GET" "/x" example_headers None.
Definition bare_recorder : TransportMarkdownRecorder := mkRecorder None None "" "" "" "".
Definition broken_world : World Tape := mkWorld blank [mkStream "ab" (Some "reset") false] [].

(** * Properties *)

(** ** Strings and tags *)

Lemma Split_before_comma (s : string) :
  ∃ rest, Split s "," = before_comma s :: rest.
Proof.
  induction s as [|c s [rest IH]]; simpl; [by eexists|].
  destruct (Ascii.eqb c ","); [by eexists|].
  rewrite IH. by eexists.
Qed.

Lemma structFieldAttributes_text (readonly optional : bool) :
  structFieldAttributes readonly optional = attributes_text readonly optional.
Proof. by destruct readonly, optional. Qed.

(** ** One field *)

Section TableFacts.
Context {W : Type} `{Writer W}.

(** [writeStructField], read off its definition: classify, write the row,
    descend when the type cell reads [Object] or [Array]. *)
Lemma writeStructField_unfold (namePrefix : string) (f : StructField) (w : W) :
  writeStructField namePrefix f w =
  match structFieldType (Type_ f) (field_parts f) with
  | (_, Some err) => (w, Return (Some err))
  | (sType, None) =>
      match Write w (field_row namePrefix f sType) with
      | (w', None) =>
          let name := namePrefix +:+ structFieldName f (field_parts f) in
          if String.eqb sType "Object" then writeStructFields (name +:+ ".") (Type_ f) w'
          else if String.eqb sType "Array" then writeStructFields (name +:+ "[].") (Type_ f) w'
          else (w', Return None)
      | (w', Some err) => (w', Return (Some err))
      end
  end.
Proof. by destruct f. Qed.

(** [field_rows], read off its definition. *)
Lemma field_rows_unfold (namePrefix : string) (f : StructField) :
  field_rows namePrefix f =
    let name := namePrefix +:+ structFieldName f (field_parts f) in
    let sType := (structFieldType (Type_ f) (field_parts f)).1 in
    field_row namePrefix f sType ::
      (if String.eqb sType "Object" then struct_rows (name +:+ ".") (Type_ f)
       else if String.eqb sType "Array" then struct_rows (name +:+ "[].") (Type_ f)
       else []).
Proof. by destruct f. Qed.

Lemma structFieldType_unwrap (t : rtype) (parts : list string) :
  structFieldType t parts = structFieldType (unwrap_pointers t) parts.
Proof.
  induction t as [| k n e IH | ] using rtype_ind; try done.
  by destruct k.
Qed.

(** Induction on a type together with its fields. *)
Lemma rtype_fields_ind (P : rtype → Prop) (Q : StructField → Prop) :
  (∀ k n, P (Scalar k n)) →
  (∀ k n elem, P elem → P (Composite k n elem)) →
  (∀ n fields, Forall Q fields → P (StructOf n fields)) →
  (∀ n t g, P t → Q (mkField n t g)) →
  ∀ t, P t.
Proof.
  intros HS HC HR HF.
  fix IH 1. intros [k n | k n elem | n fields].
  - apply HS.
  - apply HC, IH.
  - apply HR. induction fields as [|[n' t' g'] rest IHrest]; constructor.
    + apply HF, IH.
    + apply IHrest.
Qed.

Lemma write_all_app (w : W) (xs ys : list string) :
  write_all w (xs ++ ys) =
  match write_all w xs with
  | (w', None) => write_all w' ys
  | stopped => stopped
  end.
Proof.
  revert w. induction xs as [|x xs IH]; intros w; simpl; [done|].
  destruct (Write w x) as [w' [e|]]; [done|]. apply IH.
Qed.

(** The walk over a type performs the writes of [struct_rows], in that
    order, when it runs to its end. *)
Lemma writeStructFields_rows (v : rtype) :
  ∀ (namePrefix : string) (w w' : W),
    writeStructFields namePrefix v w = (w', Return None) →
    write_all w (struct_rows namePrefix v) = (w', None).
Proof.
  induction v as [k n | k n elem IH | n fields IH | n t g IH]
    using rtype_fields_ind
    with (Q := λ f, ∀ namePrefix (w w' : W),
                 writeStructField namePrefix f w = (w', Return None) →
                 write_all w (field_rows namePrefix f) = (w', None)).
  - intros p w w' Hrun. done.
  - intros p w w' Hrun. simpl in *. by apply IH.
  - intros p w w'. simpl.
    revert w. induction IH as [|f rest Hf _ IHrest]; intros w Hrun.
    + by simplify_eq.
    + destruct (writeStructField p f w) as [w1 [[e|]|]] eqn:Hone; try done.
      rewrite write_all_app, (Hf _ _ _ Hone). by apply IHrest.
  - intros p w w' Hrun.
    rewrite writeStructField_unfold in Hrun. rewrite field_rows_unfold.
    simpl in *.
    destruct (structFieldType t _) as [sType [e|]]; [done|]. simpl.
    destruct (Write w _) as [w1 [e|]]; [done|].
    destruct (String.eqb sType "Object"); [by apply IH|].
    destruct (String.eqb sType "Array"); [by apply IH|].
    by simplify_eq.
Qed.

(** A write that the destination refuses ends the rendering of the field
    with that error. *)
Lemma writeStructField_refused (namePrefix : string) (f : StructField) (w w' : W)
    (sType : string) (e : error) :
  structFieldType (Type_ f) (field_parts f) = (sType, None) →
  Write w (field_row namePrefix f sType) = (w', Some e) →
  writeStructField namePrefix f w = (w', Return (Some e)).
Proof. intros Hcls Hw. by rewrite writeStructField_unfold, Hcls, Hw. Qed.

Lemma writeStructField_rows (namePrefix : string) (f : StructField) (w w' : W) :
  writeStructField namePrefix f w = (w', Return None) →
  write_all w (field_rows namePrefix f) = (w', None).
Proof.
  intros Hrun.
  pose proof (writeStructFields_rows (StructOf "" [f]) namePrefix w w') as Hall.
  simpl in Hall. rewrite Hrun, app_nil_r in Hall. by apply Hall.
Qed.

(** However a walk ends, the writes it has performed are an initial part of
    [struct_rows], in that order. *)
Lemma writeStructFields_prefix (v : rtype) :
  ∀ (namePrefix : string) (w : W),
    ∃ performed, performed `prefix_of` struct_rows namePrefix v ∧
                 (write_all w performed).1 = (writeStructFields namePrefix v w).1.
Proof.
  induction v as [k n | k n elem IH | n fields IH | n t g IH]
    using rtype_fields_ind
    with (Q := λ f, ∀ namePrefix (w : W),
                 ∃ performed, performed `prefix_of` field_rows namePrefix f ∧
                   (write_all w performed).1 = (writeStructField namePrefix f w).1).
  - intros p w. exists []. split; [apply prefix_nil | done].
  - intros p w. apply IH.
  - intros p. simpl.
    induction IH as [|f rest Hf _ IHrest]; intros w.
    + exists []. split; [apply prefix_nil | done].
    + destruct (writeStructField p f w) as [w1 c] eqn:Hone.
      assert (c = Return None ∨ c ≠ Return None) as [->|Hstop]
        by (destruct c as [[e|]|]; auto).
      * destruct (IHrest w1) as (performed & Hpre & Hst).
        exists (field_rows p f ++ performed). split; [by apply prefix_app|].
        by rewrite write_all_app, (writeStructField_rows _ _ _ _ Hone).
      * destruct (Hf p w) as (performed & Hpre & Hst).
        exists performed. split; [by apply prefix_app_r|].
        rewrite Hst, Hone. by destruct c as [[e|]|].
  - intros p w. rewrite writeStructField_unfold, field_rows_unfold. simpl.
    destruct (structFieldType t _) as [sType [e|]]; simpl.
    { exists []. split; [apply prefix_nil | done]. }
    set (row := field_row p (mkField n t g) sType).
    destruct (Write w row) as [w1 [e|]] eqn:Hw.
    { exists [row]. split; [apply prefix_cons, prefix_nil | by simpl; rewrite Hw]. }
    destruct (String.eqb sType "Object").
    { destruct (IH ((p +:+ structFieldName (mkField n t g) (field_parts (mkField n t g))) +:+ ".") w1)
        as (performed & Hpre & Hst).
      exists (row :: performed). split; [by apply prefix_cons | by simpl; rewrite Hw]. }
    destruct (String.eqb sType "Array").
    { destruct (IH ((p +:+ structFieldName (mkField n t g) (field_parts (mkField n t g))) +:+ "[].") w1)
        as (performed & Hpre & Hst).
      exists (row :: performed). split; [by apply prefix_cons | by simpl; rewrite Hw]. }
    exists [row]. split; [done | by simpl; rewrite Hw].
Qed.

End TableFacts.

(** ** The table renderer: names, attributes, type cells, order *)


(** C8, as the code has it: the attribute text of a row is
    ["(readonly optional)"] when the field carries both flags, ["(readonly)"]
    or ["(optional)"] when it carries one, in that order; with neither flag
    the text is empty, and the row still holds the space that separates the
    type from the attributes, so the type cell ends in two spaces. *)
Theorem C8_row_attributes {W : Type} `{Writer W}
    (namePrefix : string) (f : StructField) (w : W) (sType : string) :
  structFieldType (Type_ f) (field_parts f) = (sType, None) →
  let readonly := contains (field_parts f) "readonly" in
  let optional := contains (field_parts f) "omitempty" in
  let name := namePrefix +:+ structFieldName f (field_parts f) in
  let row := "| " +:+ name +:+ " | " +:+ sType +:+ " " +:+
             attributes_text readonly optional +:+ " | " +:+
             structDescription f +:+ " |" +:+ LF in
  writeStructField namePrefix f w =
    match Write w row with
    | (w', Some err) => (w', Return (Some err))
    | (w', None) =>
        if String.eqb sType "Object" then writeStructFields (name +:+ ".") (Type_ f) w'
        else if String.eqb sType "Array" then writeStructFields (name +:+ "[].") (Type_ f) w'
        else (w', Return None)
    end ∧
  (readonly = false → optional = false →
     row = "| " +:+ name +:+ " | " +:+ sType +:+ "  | " +:+
           structDescription f +:+ " |" +:+ LF).
Proof.
  intros Hcls readonly optional name row.
  assert (field_row namePrefix f sType = row) as Hrow.
  { unfold field_row, format_row. by rewrite structFieldAttributes_text. }
  split.
  - rewrite writeStructField_unfold, Hcls, Hrow.
    by destruct (Write w row) as [w' [e|]].
  - intros Hr Ho. unfold row. by rewrite Hr, Ho.
Qed.

Lemma C8_row_attributes_witness :
  structFieldType (Type_ tagged_field) (field_parts tagged_field) = ("number", None) ∧
  writeStructField "" tagged_field blank =
    (mkTape ["| id | number (readonly optional) |  |" +:+ LF] [], Return None).
Proof.
  split; [reflexivity|].
  destruct (C8_row_attributes "" tagged_field blank "number" eq_refl) as [Hrun _].
  rewrite Hrun. reflexivity.
Defined.

(** C8 as the specification words it fails on a field without flags: the row
    written keeps the space before the (empty) attribute text, it is not the
    row with that space left out. *)
Lemma C8_gap_counterexample :
  written (writeStructField "" plain_field blank).1 = ["| Hello | string  |  |" +:+ LF] ∧
  row_without_gap "Hello" "string" (structFieldAttributes false false) ""
    = "| Hello | string |  |" +:+ LF ∧
  written (writeStructField "" plain_field blank).1
    ≠ [row_without_gap "Hello" "string" (structFieldAttributes false false) ""].
Proof. split; [reflexivity|]. split; [reflexivity|]. discriminate. Qed.

(** C2, as the code has it: for a field whose type, behind any pointers, is
    a named struct type and whose tag has no [embed] flag, the type cell is
    the name of that type. *)
Theorem C2_named_struct_cell (f : StructField) (name : string) (fields : list StructField) :
  unwrap_pointers (Type_ f) = StructOf name fields →
  name ≠ "" →
  contains (field_parts f) "embed" = false →
  structFieldType (Type_ f) (field_parts f) = (name, None).
Proof.
  intros Hty Hname Hembed.
  rewrite structFieldType_unwrap, Hty. simpl.
  apply String.eqb_neq in Hname. by rewrite Hname, Hembed.
Qed.

Lemma C2_named_struct_cell_witness :
  unwrap_pointers (Type_ inner_field) = Inner ∧
  structFieldType (Type_ inner_field) (field_parts inner_field) = ("Inner", None).
Proof.
  split; [reflexivity|].
  apply (C2_named_struct_cell inner_field "Inner" [mkField "X" (Scalar Int "int") []]).
  - reflexivity.
  - discriminate.
  - reflexivity.
Defined.

(** C2 as the specification words it fails: the field [In *Inner] has a
    named struct type and no [embed] flag, and its type cell reads [Inner],
    not [Object]. *)
Lemma C2_object_cell_counterexample :
  unwrap_pointers (Type_ inner_field) = Inner ∧
  type_name Inner = "Inner" ∧
  contains (field_parts inner_field) "embed" = false ∧
  (structFieldType (Type_ inner_field) (field_parts inner_field)).1 ≠ "Object" ∧
  written (WriteStructTable (StructOf "" [inner_field]) blank).1
    = [table_header; "| In | Inner  |  |" +:+ LF].
Proof. do 3 (split; [reflexivity|]). split; [discriminate | reflexivity]. Qed.

(** C10, as the code has it: for a field whose type, behind any pointers, is
    a named struct type called neither [Object] nor [Array] and whose tag has
    no [embed] flag, the renderer writes the one row of the field and returns
    without visiting the fields of that type. *)
Theorem C10_named_struct_single_row {W : Type} `{Writer W}
    (namePrefix : string) (f : StructField) (w : W)
    (name : string) (fields : list StructField) :
  unwrap_pointers (Type_ f) = StructOf name fields →
  name ≠ "" → name ≠ "Object" → name ≠ "Array" →
  contains (field_parts f) "embed" = false →
  writeStructField namePrefix f w =
    (let '(w', err) := Write w (field_row namePrefix f name) in (w', Return err)) ∧
  field_rows namePrefix f = [field_row namePrefix f name].
Proof.
  intros Hty Hname Hobj Harr Hembed.
  pose proof (Hcell := structFieldType_unwrap (Type_ f) (field_parts f)).
  rewrite Hty in Hcell. simpl in Hcell.
  apply String.eqb_neq in Hname, Hobj, Harr.
  rewrite Hname, Hembed in Hcell. simpl in Hcell.
  split.
  - rewrite writeStructField_unfold, Hcell.
    destruct (Write w _) as [w' [e|]]; [done|]. by rewrite Hobj, Harr.
  - destruct f as [n t g]. simpl in *. rewrite Hcell. simpl. by rewrite Hobj, Harr.
Qed.

Lemma C10_named_struct_single_row_witness :
  unwrap_pointers (Type_ inner_field) = Inner ∧
  writeStructField "p." inner_field blank =
    (mkTape ["| p.In | Inner  |  |" +:+ LF] [], Return None).
Proof.
  split; [reflexivity|].
  destruct (C10_named_struct_single_row "p." inner_field blank "Inner"
              [mkField "X" (Scalar Int "int") []]) as [Hrun _];
    [reflexivity | discriminate | discriminate | discriminate | reflexivity |].
  rewrite Hrun. reflexivity.
Defined.

(** C10 as the specification words it fails on a struct type that is itself
    called [Object]: the field [O Object] has a named struct type and no
    [embed] flag, yet the row of the field is followed by the row of the
    type's own field [X]. *)
Lemma C10_recursion_counterexample :
  unwrap_pointers (Type_ object_field) = Object ∧
  type_name Object ≠ "" ∧
  contains (field_parts object_field) "embed" = false ∧
  written (WriteStructTable (StructOf "" [object_field]) blank).1
    = [table_header; "| O | Object  |  |" +:+ LF; "| O.X | number  |  |" +:+ LF].
Proof. split; [reflexivity|]. split; [discriminate|]. split; reflexivity. Qed.

(** C6: the rows of a rendered record type come in declaration order, depth
    first.  However a rendering ends, the writes it has performed are an
    initial part of the header followed by [struct_rows], in that order, and
    a rendering that runs to its end has performed all of them.  In
    [struct_rows] the row of a field whose type cell reads [Object] is
    followed at once by the rows of that field's own fields under the prefix
    [prefix+name+"."], the row of a field whose type cell reads [Array] by
    the rows of the fields of its element type under [prefix+name+"[]."],
    and only then come the rows of the next field of the enclosing type. *)
Theorem C6_depth_first_rows {W : Type} `{Writer W} (t : rtype) (w : W) :
  (∃ performed,
     performed `prefix_of` table_header :: struct_rows "" (unwrap_pointers t) ∧
     (write_all w performed).1 = (WriteStructTable t w).1) ∧
  (∀ w', WriteStructTable t w = (w', Return None) →
         write_all w (table_header :: struct_rows "" (unwrap_pointers t)) = (w', None)) ∧
  (∀ prefix n f rest,
     struct_rows prefix (StructOf n (f :: rest)) =
     field_rows prefix f ++ struct_rows prefix (StructOf n rest)) ∧
  (∀ prefix f,
     let name := prefix +:+ structFieldName f (field_parts f) in
     let sType := (structFieldType (Type_ f) (field_parts f)).1 in
     field_rows prefix f =
       field_row prefix f sType ::
         (if String.eqb sType "Object" then struct_rows (name +:+ ".") (Type_ f)
          else if String.eqb sType "Array" then struct_rows (name +:+ "[].") (Type_ f)
          else [])) ∧
  (∀ prefix k n elem,
     struct_rows prefix (Composite k n elem) = struct_rows prefix elem).
Proof.
  split; [|split; [|split; [done|split; [|done]]]].
  - unfold WriteStructTable.
    destruct (Write w table_header) as [w1 [e|]] eqn:Hw.
    + exists [table_header]. split; [apply prefix_cons, prefix_nil | by simpl; rewrite Hw].
    + destruct (writeStructFields_prefix (unwrap_pointers t) "" w1)
        as (performed & Hpre & Hst).
      exists (table_header :: performed).
      split; [by apply prefix_cons | by simpl; rewrite Hw].
  - intros w' Hrun. unfold WriteStructTable in Hrun. simpl.
    destruct (Write w table_header) as [w1 [e|]]; [done|].
    by apply writeStructFields_rows.
  - intros prefix f. apply field_rows_unfold.
Qed.

Lemma C6_depth_first_rows_witness :
  WriteStructTable example_type blank =
    (mkTape [table_header;
             "| Hello | string  | hello is a fine field |" +:+ LF;
             "| World | number  |  |" +:+ LF;
             "| Obj | Object  | nested field |" +:+ LF;
             "| Obj.Hello | number  |  |" +:+ LF;
             "| Obj.World | string  |  |" +:+ LF;
             "| Array | Array  | array field |" +:+ LF;
             "| Array[].Hello | number  |  |" +:+ LF;
             "| Array[].World | string  |  |" +:+ LF] [], Return None) ∧
  write_all blank (table_header :: struct_rows "" (unwrap_pointers example_type))
    = ((WriteStructTable example_type blank).1, None).
Proof.
  split; [reflexivity|].
  apply (proj1 (proj2 (C6_depth_first_rows example_type blank))). reflexivity.
Defined.

(** ** The header filter *)

Section FilterFacts.
Context `{CaseFolding}.

Lemma SkipHeaders_true (s : list string) (header : string) (value : list string) :
  SkipHeaders s header value = true ↔ ∃ hdr, hdr ∈ s ∧ EqualFold hdr header = true.
Proof.
  induction s as [|hdr rest IH]; simpl.
  - split; [done|]. intros (hdr & Hin & _). by apply elem_of_nil in Hin.
  - destruct (EqualFold hdr header) eqn:Hfold.
    + split; [|done]. intros _. exists hdr. split; [left | done].
    + rewrite IH. split.
      * intros (h & Hin & Heq). exists h. split; [by right | done].
      * intros (h & Hin & Heq). apply elem_of_cons in Hin as [->|Hin]; [congruence|].
        by exists h.
Qed.


(** An entry of the list skips every name that differs from it only in the
    case of ASCII letters. *)
Lemma SkipHeaders_ASCII_case (s : list string) (hdr header : string)
    (value : list string) :
  hdr ∈ s → ToLower hdr = ToLower header → SkipHeaders s header value = true.
Proof.
  intros Hin Hcase. apply SkipHeaders_true. exists hdr. split; [done|].
  by apply EqualFold_ASCII_case.
Qed.

End FilterFacts.

(** The map built by the loop of [skipHeaders] holds [true] at exactly the
    names the filter accepts. *)
Lemma skip_map_lookup (skipper : HeadersSkipper) (l : list (string * list string))
    (k : string) :
  default false
    (foldr (λ kv (result : gmap string bool),
              if skipper kv.1 kv.2 then <[kv.1 := true]> result else result)
           ∅ l !! k) = true
  ↔ ∃ v, (k, v) ∈ l ∧ skipper k v = true.
Proof.
  induction l as [|[k' v'] l IH]; simpl.
  - rewrite lookup_empty. simpl. split; [done|].
    intros (v & Hin & _). by apply elem_of_nil in Hin.
  - destruct (skipper k' v') eqn:Hskip.
    + destruct (decide (k' = k)) as [->|Hne].
      * rewrite lookup_insert_eq. simpl. split; [|done].
        intros _. exists v'. split; [left | done].
      * rewrite lookup_insert_ne by done. rewrite IH. split.
        -- intros (v & Hin & Hv). exists v. split; [by right | done].
        -- intros (v & Hin & Hv). apply elem_of_cons in Hin as [[= -> ->]|Hin]; [done|].
           by exists v.
    + rewrite IH. split.
      * intros (v & Hin & Hv). exists v. split; [by right | done].
      * intros (v & Hin & Hv). apply elem_of_cons in Hin as [[= -> ->]|Hin]; [congruence|].
        by exists v.
Qed.

Lemma excluded_skipHeaders (t : TransportMarkdownRecorder) (skipper : HeadersSkipper)
    (h : Header) (k : string) :
  Skipper t = Some skipper →
  excluded (skipHeaders t h) k = true ↔ ∃ v, h !! k = Some v ∧ skipper k v = true.
Proof.
  intros Hsk. unfold skipHeaders. rewrite Hsk. simpl.
  rewrite skip_map_lookup. by setoid_rewrite elem_of_map_to_list.
Qed.

Lemma elem_of_sortedKeyValues (h : Header) (exclude : option (gmap string bool))
    (kv : string * list string) :
  kv ∈ sortedKeyValues h exclude ↔ h !! kv.1 = Some kv.2 ∧ excluded exclude kv.1 = false.
Proof.
  unfold sortedKeyValues. rewrite merge_sort_Permutation, list_elem_of_filter.
  destruct kv as [k v]. rewrite elem_of_map_to_list. simpl. tauto.
Qed.

Section HeaderFacts.
Context `{NetHTTP}.


End HeaderFacts.



(** ** Bodies *)

Section RecorderFacts.
Context {W : Type} `{Writer W} `{NetHTTP}.

Lemma write_sink (σ σ' : World W) (p : string) (err : option error) :
  write σ p = (σ', err) →
  Write (sink σ) p = (sink σ', err) ∧ streams σ' = streams σ ∧ issued σ' = issued σ.
Proof.
  unfold write. destruct (Write (sink σ) p) as [w' e]. by intros [= <- <-].
Qed.

(** X17: when the destination refuses the bytes of a body that was read to
    its end, [writeBody] returns the (nil) error of the read, not the error
    of the write; the body field keeps referring to the original stream,
    which is left drained and open, and no stream is created. *)
Lemma writeBody_refused (σ : World W) (a : nat) (s : Stream) (w' : W) (e : error) :
  streams σ !! a = Some s →
  fault s = None →
  Write (sink σ) (pending s) = (w', Some e) →
  writeBody σ (Some a) =
    (mkWorld w' (<[a := mkStream "" None (closed s)]> (streams σ)) (issued σ), Some a, None).
Proof.
  intros Ha Hfault Hw. unfold writeBody, deref, write. rewrite Ha. simpl.
  rewrite Hfault. simpl. by rewrite Hw.
Qed.

End RecorderFacts.

(** X23: a body that is absent is left alone, nothing is written for it.  A
    body that is present, can be read to its end and is accepted by the
    destination is handed over in one [Write] of all its bytes; the stream
    that held it is closed; and the body field then refers to a new stream
    object, distinct from every earlier one, whose bytes are those of the
    original, be they none or many.  No other stream object is touched. *)
Theorem writeBody_capture_and_replay {W : Type} `{Writer W} (σ : World W) :
  writeBody σ None = (σ, None, None) ∧
  ∀ (a : nat) (s : Stream) (w' : W),
    streams σ !! a = Some s →
    fault s = None →
    Write (sink σ) (pending s) = (w', None) →
    ∃ σ' b,
      writeBody σ (Some a) = (σ', Some b, None) ∧
      sink σ' = w' ∧
      issued σ' = issued σ ∧
      (∃ original, streams σ' !! a = Some original ∧ closed original = true) ∧
      streams σ !! b = None ∧
      (∃ fresh, streams σ' !! b = Some fresh ∧ closed fresh = false ∧
                (ReadAll fresh).2 = (pending s, None)) ∧
      ∀ c, c ≠ a → c ≠ b → streams σ' !! c = streams σ !! c.
Proof.
  split; [done|]. intros a s w' Ha Hfault Hw.
  pose proof (lookup_lt_Some _ _ _ Ha) as Hlt.
  eexists _, (length (streams σ)).
  split.
  { unfold writeBody, deref, write. rewrite Ha. simpl. rewrite Hfault. simpl.
    rewrite Hw. simpl. rewrite !length_insert. reflexivity. }
  simpl. split; [done|]. split; [done|]. split.
  { exists (mkStream "" None true). split; [|done].
    rewrite lookup_app_l by (by rewrite !length_insert).
    rewrite list_lookup_insert_eq by (by rewrite length_insert).
    done. }
  split; [by apply lookup_ge_None|]. split.
  { exists (NewReader (pending s)). split; [|done].
    rewrite lookup_app_r by (by rewrite !length_insert).
    by rewrite !length_insert, Nat.sub_diag. }
  intros c Hca Hcb.
  destruct (decide (c < length (streams σ))) as [Hc|Hc].
  - rewrite lookup_app_l by (by rewrite !length_insert).
    by rewrite !list_lookup_insert_ne.
  - rewrite !lookup_ge_None_2; [done | lia |].
    rewrite length_app, !length_insert. simpl. lia.
Qed.

Lemma writeBody_capture_and_replay_witness :
  writeBody (world_with blank) (Some 0) =
    (mkWorld (mkTape ["abc"] []) [mkStream "" None true; NewReader "abc"] [], Some 1, None) ∧
  ∃ σ' b,
    writeBody (mkWorld blank [NewReader ""] []) (Some 0) = (σ', Some b, None) ∧
    sink σ' = mkTape [""] [] ∧
    issued σ' = [] ∧
    (∃ original, streams σ' !! 0 = Some original ∧ closed original = true) ∧
    [NewReader ""] !! b = None ∧
    (∃ fresh, streams σ' !! b = Some fresh ∧ closed fresh = false ∧
              (ReadAll fresh).2 = ("", None)) ∧
    ∀ c, c ≠ 0 → c ≠ b → streams σ' !! c = [NewReader ""] !! c.
Proof.
  split; [reflexivity|].
  apply (proj2 (writeBody_capture_and_replay (mkWorld blank [NewReader ""] []))
           0 (NewReader "") (mkTape [""] [])); reflexivity.
Defined.

(** ** The round trip *)

Section RoundTripFacts.
Context {W : Type} `{Writer W} `{NetHTTP}.

Lemma writeBody_issued (σ σ' : World W) (r r' : option nat) (err : option error) :
  writeBody σ r = (σ', r', err) → issued σ' = issued σ.
Proof.
  unfold writeBody. destruct r as [a|]; [|by intros [= <- _ _]].
  simpl. destruct (fault _); [by intros [= <- _ _]|].
  destruct (write _ _) as [σ1 [e|]] eqn:Hw; apply write_sink in Hw as (_ & _ & Hi);
    intros [= <- _ _]; simpl in *; done.
Qed.

(** One step of a recording: split on the outcome of the next write and
    keep what it says about the log of issued requests. *)
Ltac next_write :=
  let σ' := fresh "σ" in
  let Hw := fresh "Hw" in
  destruct (write _ _) as [σ' [?|]] eqn:Hw;
  apply write_sink in Hw as (_ & _ & Hw);
  [intros [= <- _ _]; congruence|].

(** Recording a request never reaches the wrapped transport. *)
Lemma recordRequest_issued (t : TransportMarkdownRecorder) (σ σ' : World W)
    (req req' : Request) (err : option error) :
  recordRequest t σ req = (σ', req', err) → issued σ' = issued σ.
Proof.
  unfold recordRequest. do 3 next_write.
  destruct (writeBody _ _) as [[σ4 body] [e|]] eqn:Hbody;
    apply writeBody_issued in Hbody; [intros [= <- _ _]; congruence|].
  do 2 next_write. intros [= <- _ _]; congruence.
Qed.

Lemma recordResponse_issued (t : TransportMarkdownRecorder) (σ σ' : World W)
    (res res' : Response) (err : option error) :
  recordResponse t σ res = (σ', res', err) → issued σ' = issued σ.
Proof.
  unfold recordResponse. do 3 next_write.
  destruct (writeBody _ _) as [[σ4 body] [e|]] eqn:Hbody;
    apply writeBody_issued in Hbody; [intros [= <- _ _]; congruence|].
  do 2 next_write. intros [= <- _ _]; congruence.
Qed.

(** X16: an error reported by the recording of the request ends the call
    before the transport is reached: [RoundTrip] returns that error with a
    nil response and no request has been issued. *)
Lemma RoundTrip_request_error (t : TransportMarkdownRecorder) (σ σ1 : World W)
    (req req1 : Request) (e : error) :
  recordRequest t σ req = (σ1, req1, Some e) →
  RoundTrip t σ req = (σ1, req1, (None, Some e)) ∧ issued σ1 = issued σ.
Proof.
  intros Hreq. split; [unfold RoundTrip; by rewrite Hreq|].
  by eapply recordRequest_issued.
Qed.

(** X18: without a body, the recording of a request is the sequence of its
    five writes (preamble, fence with the request line, header block,
    closing fence, postamble), cut at the first one the destination refuses;
    the error of that write is the error returned, and the request and the
    streams are left as they were. *)
Lemma recordRequest_without_body (t : TransportMarkdownRecorder) (σ : World W)
    (req : Request) :
  ReqBody req = None →
  recordRequest t σ req =
    let '(w', err) :=
      write_all (sink σ)
        [RequestPreamble t;
         fence_open +:+ Method req +:+ " " +:+ RequestURI req +:+ LF;
         ReplaceAll (WriteSubset (ReqHeader req) (skipHeaders t (ReqHeader req))) CR ""
           +:+ LF;
         fence_close;
         RequestPostamble t] in
    (mkWorld w' (streams σ) (issued σ), req, err).
Proof.
  destruct req as [m u h b]. simpl. intros ->.
  unfold recordRequest, write. simpl.
  repeat (destruct (Write _ _) as [? [?|]]; simpl; [done|]). done.
Qed.

(** X19: without a body, the recording of a response is the sequence of its
    five writes (preamble, fence with protocol and status, header block,
    closing fence, postamble), cut at the first one the destination refuses;
    the error of that write is the error returned, and the response and the
    streams are left as they were. *)
Lemma recordResponse_without_body (t : TransportMarkdownRecorder) (σ : World W)
    (res : Response) :
  ResBody res = None →
  recordResponse t σ res =
    let '(w', err) :=
      write_all (sink σ)
        [ResponsePreamble t;
         fence_open +:+ Proto res +:+ " " +:+ Status res +:+ LF;
         ReplaceAll (WriteSubset (ResHeader res) (skipHeaders t (ResHeader res))) CR ""
           +:+ LF;
         fence_close;
         ResponsePostamble t] in
    (mkWorld w' (streams σ) (issued σ), res, err).
Proof.
  destruct res as [m u h b]. simpl. intros ->.
  unfold recordResponse, write. simpl.
  repeat (destruct (Write _ _) as [? [?|]]; simpl; [done|]). done.
Qed.

End RoundTripFacts.

(** C1, as the code has it: when the recording of the request succeeds and
    the wrapped transport returns a response, an error reported by the
    recording of that response makes [RoundTrip] return that error together
    with a nil response. *)
Theorem C1_response_record_failure {W : Type} `{Writer W} `{NetHTTP}
    (t : TransportMarkdownRecorder) (σ σ1 σ3 : World W) (req req1 : Request)
    (objects : Streams) (resp resp' : Response) (e : error) :
  recordRequest t σ req = (σ1, req1, None) →
  transport t (streams σ1) req1 = (objects, Responded resp) →
  recordResponse t (mkWorld (sink σ1) objects (issued σ1 ++ [req1])) resp
    = (σ3, resp', Some e) →
  RoundTrip t σ req = (σ3, req1, (None, Some e)).
Proof.
  intros Hreq Hcall Hres. unfold RoundTrip. by rewrite Hreq, Hcall, Hres.
Qed.

Lemma C1_response_record_failure_witness :
  let σ := world_with (failing_at 6 "disk full") in
  let r1 := recordRequest recorder σ example_request in
  let r2 := transport recorder (streams r1.1.1) r1.1.2 in
  let answer := mkResponse "HTTP/1.1" "200 OK"
                  {[ "Content-Length" := ["4"]; "Date" := ["today"] ]} (Some 2) in
  let r3 := recordResponse recorder (mkWorld (sink r1.1.1) r2.1 [r1.1.2]) answer in
  r1.2 = None ∧ r2.2 = Responded answer ∧ r3.2 = Some "disk full" ∧
  RoundTrip recorder σ example_request = (r3.1.1, r1.1.2, (None, Some "disk full")).
Proof.
  intros σ r1 r2 answer r3.
  split; [reflexivity|]. split; [reflexivity|]. split; [reflexivity|].
  apply (C1_response_record_failure recorder σ r1.1.1 r3.1.1 example_request r1.1.2
           r2.1 answer r3.1.2 "disk full").
  - vm_compute. reflexivity.
  - vm_compute. reflexivity.
  - vm_compute. reflexivity.
Defined.

(** C1 as the specification words it fails: the request is recorded, the
    transport answers, the destination refuses the first write of the
    response recording, and [RoundTrip] returns the error with a nil
    response, not with the response it obtained. *)
Lemma C1_nil_response_counterexample :
  let σ := world_with (failing_at 6 "disk full") in
  let r1 := recordRequest recorder σ example_request in
  r1.2 = None ∧
  (∃ resp, (transport recorder (streams r1.1.1) r1.1.2).2 = Responded resp) ∧
  (Write (sink r1.1.1) (ResponsePreamble recorder)).2 = Some "disk full" ∧
  (RoundTrip recorder σ example_request).2 = (None, Some "disk full").
Proof.
  split; [reflexivity|]. split; [by eexists|]. split; reflexivity.
Qed.

(** C3 at the failing input: the destination refuses the write of the body
    bytes [abc] (its fourth call) with [disk full].  [writeBody] returns nil
    and leaves the drained stream in place; [recordRequest] goes on to write
    the closing fence and the postamble and returns nil as well. *)
Theorem C3_body_write_error_lost :
  (Write (mkTape [] [Some "disk full"]) "abc").2 = Some "disk full" ∧
  writeBody (world_with (mkTape [] [Some "disk full"])) (Some 0)
    = (mkWorld (mkTape [] []) [mkStream "" None false] [], Some 0, None) ∧
  (recordRequest recorder (world_with (failing_at 3 "disk full")) example_request).2 = None ∧
  written (sink (recordRequest recorder (world_with (failing_at 3 "disk full"))
                               example_request).1.1)
    = ["## Request" +:+ LF;
       "```" +:+ LF +:+ "GET /x" +:+ LF;
       "Content-Type: application/json" +:+ LF +:+ LF;
       LF +:+ "```" +:+ LF;
       "that was the request" +:+ LF].
Proof.
  split; [reflexivity|]. split; [reflexivity|]. split; vm_compute; reflexivity.
Qed.

(** C4 at the failing input: the destination refuses the write of the body
    bytes.  For the request body [abc], [writeBody] returns nil although the
    body field still refers to the original stream, now drained, not closed
    and not replaced.  For the response body [done] (the tenth write of the
    round trip), [RoundTrip] returns the response with a nil error, and the
    body of that response is the drained stream of the transport: it is not
    closed, no stream has been created after it, and a read of it yields no
    byte where the original content was [done]. *)
Theorem C4_refused_body_write_not_replayed :
  (Write (failing_at 0 "disk full") "abc").2 = Some "disk full" ∧
  writeBody (world_with (failing_at 0 "disk full")) (Some 0)
    = (mkWorld blank [mkStream "" None false] [], Some 0, None) ∧
  (let σ := world_with (failing_at 9 "disk full") in
   let recorded := recordRequest recorder σ example_request in
   let answer := transport recorder (streams recorded.1.1) recorded.1.2 in
   let run := RoundTrip recorder σ example_request in
   recorded.2 = None ∧
   (∃ resp, answer.2 = Responded resp ∧ ResBody resp = Some 2) ∧
   answer.1 !! 2 = Some (NewReader "done") ∧
   (∃ resp, run.2 = (Some resp, None) ∧ ResBody resp = Some 2) ∧
   streams run.1.1
     = [mkStream "" None true; NewReader "abc"; mkStream "" None false] ∧
   (ReadAll (deref (streams run.1.1) 2)).2 = ("", None)).
Proof.
  split; [reflexivity|]. split; [reflexivity|].
  split; [vm_compute; reflexivity|].
  split; [eexists; split; vm_compute; reflexivity|].
  split; [vm_compute; reflexivity|].
  split; [eexists; split; vm_compute; reflexivity|].
  split; vm_compute; reflexivity.
Qed.

(** C5 at the failing input: the destination refuses the write of the
    request body (its fourth call) with [disk full]; the wrapped transport is
    invoked all the same, with the request whose body has been drained, and
    [RoundTrip] returns its response and a nil error. *)
Theorem C5_transport_reached_after_refused_body :
  let r := RoundTrip recorder (world_with (failing_at 3 "disk full")) example_request in
  (Write (mkTape [] [Some "disk full"]) "abc").2 = Some "disk full" ∧
  issued r.1.1 = [mkRequest "GET" "/x" example_headers (Some 0)] ∧
  streams r.1.1 !! 0 = Some (mkStream "" None false) ∧
  ∃ resp, r.2 = (Some resp, None).
Proof.
  split; [reflexivity|]. split; [vm_compute; reflexivity|].
  split; [vm_compute; reflexivity|]. eexists. vm_compute. reflexivity.
Qed.

(** * Further properties of the code *)

(** ** Tags and type cells *)

(** X1: [contains] decides membership in the slice. *)
Theorem contains_elem_of (array : list string) (element : string) :
  contains array element = true ↔ element ∈ array.
Proof.
  induction array as [|elt rest IH]; simpl.
  - split; [done|]. by intros ?%elem_of_nil.
  - destruct (String.eqb elt element) eqn:E.
    + apply String.eqb_eq in E as ->. split; [|done]. intros _. left.
    + apply String.eqb_neq in E. rewrite IH, elem_of_cons. split; [by right|].
      by intros [->|].
Qed.

(** X2: the first element of the tag is searched for flags like every other
    element: when it is a usable name, it is the rendered name and at the
    same time counts as a flag of that spelling. *)
Theorem first_element_is_name_and_flag (f : StructField) (first : string) :
  before_comma (field_tag f) = first →
  first ≠ "" → first ≠ "-" →
  structFieldName f (field_parts f) = first ∧ contains (field_parts f) first = true.
Proof.
  intros Hfirst Hne Hskip. unfold field_parts.
  destruct (Split_before_comma (field_tag f)) as [flags ->]. rewrite Hfirst. simpl.
  apply String.eqb_neq in Hne, Hskip. rewrite Hne, Hskip. simpl.
  by rewrite String.eqb_refl.
Qed.

Lemma first_element_is_name_and_flag_witness :
  before_comma (field_tag done_field) = "readonly" ∧
  structFieldName done_field (field_parts done_field) = "readonly" ∧
  contains (field_parts done_field) "readonly" = true ∧
  (writeStructField "" done_field blank).1
    = mkTape ["| readonly | bool (readonly) |  |" +:+ LF] [].
Proof.
  split; [reflexivity|].
  destruct (first_element_is_name_and_flag done_field "readonly") as [Hname Hflag];
    [reflexivity | discriminate | discriminate |].
  split; [exact Hname|]. split; [exact Hflag | reflexivity].
Defined.

Lemma unwrap_pointers_not_ptr (t : rtype) (n : string) (elem : rtype) :
  unwrap_pointers t ≠ Composite Ptr n elem.
Proof.
  induction t as [| k' n' e' IH |] using rtype_ind; try done.
  by destruct k'.
Qed.

Ltac not_listed H :=
  repeat (apply elem_of_cons in H as [H|H]; [discriminate H|]);
  by apply elem_of_nil in H.

Ltac listed := rewrite !elem_of_cons; auto 10.

(** X3: a type is refused exactly when, behind its pointers, it is of kind
    uintptr, complex64, complex128, func, interface, unsafe pointer, chan or
    map; the error then names that type and the cell is empty.  A type that
    is accepted has the cell [bool], [number], [string], [Array] or [Object],
    or else its own name. *)
Theorem structFieldType_unsupported (t : rtype) (parts : list string) :
  (is_Some (structFieldType t parts).2 ↔
     (∃ k n, unwrap_pointers t = Scalar k n ∧
             k ∈ [Uintptr; Complex64; Complex128; Func; Interface; UnsafePointer]) ∨
     (∃ k n elem, unwrap_pointers t = Composite k n elem ∧ k ∈ [Chan; Map])) ∧
  (∀ e, (structFieldType t parts).2 = Some e →
        structFieldType t parts =
          ("", Some ("unsupported field type " +:+ type_name (unwrap_pointers t)))) ∧
  ((structFieldType t parts).2 = None →
   (structFieldType t parts).1 ∈ ["bool"; "number"; "string"; "Array"; "Object";
                                  type_name (unwrap_pointers t)]).
Proof.
  rewrite structFieldType_unwrap.
  pose proof (unwrap_pointers_not_ptr t) as Hptr.
  destruct (unwrap_pointers t) as [k n | k n elem | n fields].
  - split; [split|split].
    + intros [e He]. left. exists k, n. split; [done|].
      destruct k; simpl in He; try discriminate He; listed.
    + intros [(k' & n' & [= <- <-] & Hin)|(? & ? & ? & [=] & _)].
      destruct k; simpl; try (by eexists); not_listed Hin.
    + intros e He. destruct k; simpl in *; by try discriminate He.
    + intros He. destruct k; simpl in *; try discriminate He; listed.
  - split; [split|split].
    + intros [e He]. right. exists k, n, elem. split; [done|].
      destruct k; simpl in He; try discriminate He; try listed.
      by destruct (Hptr n elem).
    + intros [(? & ? & [=] & _)|(k' & n' & e' & [= <- <- <-] & Hin)].
      destruct k; simpl; try (by eexists); not_listed Hin.
    + intros e He. destruct k; simpl in *; try discriminate He; try done.
      by destruct (Hptr n elem).
    + intros He. destruct k; simpl in *; try discriminate He; try listed.
      by destruct (Hptr n elem).
  - simpl. split; [split|split].
    + intros [e He]. by destruct (String.eqb n "" || contains parts "embed").
    + by intros [(? & ? & [=] & _)|(? & ? & ? & [=] & _)].
    + intros e He. by destruct (String.eqb n "" || contains parts "embed").
    + intros _. destruct (String.eqb n "" || contains parts "embed"); simpl; listed.
Qed.

(** ** The walk over the fields *)

Section WalkFacts.
Context {W : Type} `{Writer W}.

Lemma writeStructFields_cons (p n : string) (f : StructField) (rest : list StructField)
    (w : W) :
  writeStructFields p (StructOf n (f :: rest)) w =
    match writeStructField p f w with
    | (w', Return None) => writeStructFields p (StructOf n rest) w'
    | stopped => stopped
    end.
Proof. done. Qed.

Lemma writeStructFields_innermost (p : string) (v : rtype) (w : W) :
  writeStructFields p v w = writeStructFields p (innermost v) w.
Proof. induction v using rtype_ind; simpl; done. Qed.

Lemma innermost_unwrap_pointers (t : rtype) :
  innermost (unwrap_pointers t) = innermost t.
Proof. induction t as [| k n e IH |] using rtype_ind; try done. by destruct k. Qed.

Lemma unwrap_pointers_innermost (t : rtype) :
  unwrap_pointers (innermost t) = innermost t.
Proof. induction t as [| k n e IH |] using rtype_ind; done. Qed.

Lemma structFieldType_error_text (t : rtype) (parts : list string) (e : error) :
  (structFieldType t parts).2 = Some e → ∃ n, e = "unsupported field type " +:+ n.
Proof.
  induction t as [k n | k n elem IH | n fields] using rtype_ind; simpl.
  - destruct k; simpl; intros [= <-]; by eexists.
  - destruct k; simpl; try done; intros [= <-]; by eexists.
  - by destruct (String.eqb n "" || contains parts "embed").
Qed.

(** An error that a walk returns is the refusal of a type or the error of a
    write. *)
Lemma writeStructFields_error_origin (v : rtype) :
  ∀ (p : string) (w w' : W) (e : error),
    writeStructFields p v w = (w', Return (Some e)) →
    (∃ n, e = "unsupported field type " +:+ n) ∨
    (∃ w0 chunk w1, Write w0 chunk = (w1, Some e)).
Proof.
  induction v as [k n | k n elem IH | n fields IH | n t g IH]
    using rtype_fields_ind
    with (Q := λ f, ∀ p (w w' : W) e,
                 writeStructField p f w = (w', Return (Some e)) →
                 (∃ n, e = "unsupported field type " +:+ n) ∨
                 (∃ w0 chunk w1, Write w0 chunk = (w1, Some e))).
  - done.
  - intros p w w' e. simpl. apply IH.
  - intros p w w' e. revert w.
    induction IH as [|f rest Hf _ IHrest]; intros w; [done|].
    rewrite writeStructFields_cons.
    destruct (writeStructField p f w) as [w1 [[e1|]|]] eqn:Hone; [|apply IHrest|done].
    intros [= <- <-]. by eapply Hf.
  - intros p w w' e. rewrite writeStructField_unfold. simpl.
    destruct (structFieldType t _) as [sType [e1|]] eqn:Hcls.
    { intros [= <- <-]. left. eapply structFieldType_error_text. by rewrite Hcls. }
    destruct (Write w _) as [w1 [e1|]] eqn:Hw.
    { intros [= <- <-]. right. by eexists _, _, _. }
    destruct (String.eqb sType "Object"); [apply IH|].
    destruct (String.eqb sType "Array"); [apply IH|]. done.
Qed.

Lemma single_row_field_cell (f : StructField) :
  single_row_field f = true →
  structFieldType (Type_ f) (field_parts f) = (cell f, None) ∧
  String.eqb (cell f) "Object" = false ∧ String.eqb (cell f) "Array" = false.
Proof.
  unfold single_row_field, cell.
  destruct (structFieldType _ _) as [sType [e|]]; [done|]. simpl.
  by intros [->%negb_true_iff ->%negb_true_iff]%andb_true_iff.
Qed.

Lemma writeStructField_single_row (p : string) (f : StructField) (w : W) :
  single_row_field f = true →
  writeStructField p f w =
    (let '(w', err) := Write w (field_row p f (cell f)) in (w', Return err)).
Proof.
  intros (Hcls & Hobj & Harr)%single_row_field_cell.
  rewrite writeStructField_unfold, Hcls.
  destruct (Write w _) as [w' [e|]]; [done|]. by rewrite Hobj, Harr.
Qed.

End WalkFacts.

(** X4: a struct all of whose fields are rendered as one row gives one row
    per field, in the order of declaration; the walk ends with the error of
    the first row the destination refuses, and without error otherwise. *)
Theorem flat_struct_one_row_per_field {W : Type} `{Writer W}
    (p n : string) (fields : list StructField) (w : W) :
  Forall (λ f, single_row_field f = true) fields →
  writeStructFields p (StructOf n fields) w =
    (let '(w', err) := write_all w (map (λ f, field_row p f (cell f)) fields) in
     (w', Return err)).
Proof.
  intros Hflat. revert w. induction Hflat as [|f rest Hf _ IH]; intros w; [done|].
  rewrite writeStructFields_cons, (writeStructField_single_row _ _ _ Hf). simpl.
  destruct (Write w _) as [w' [e|]]; [done|]. apply IH.
Qed.

Lemma flat_struct_one_row_per_field_witness :
  writeStructFields "p." pair_type blank =
    (mkTape ["| p.Hello | number  |  |" +:+ LF; "| p.World | string  |  |" +:+ LF] [],
     Return None).
Proof.
  rewrite (flat_struct_one_row_per_field "p." ""
             [mkField "Hello" (Scalar Uint "uint") [];
              mkField "World" (Scalar String_ "string") []] blank).
  - reflexivity.
  - repeat constructor.
Defined.

(** X5: a field of an unsupported type ends the walk with its error: the
    rows of the fields before it have been written, no row is written for
    it or for any field after it. *)
Theorem unsupported_field_stops_walk {W : Type} `{Writer W}
    (p n : string) (before after : list StructField) (bad : StructField)
    (sType : string) (e : error) (w : W) :
  Forall (λ f, single_row_field f = true) before →
  structFieldType (Type_ bad) (field_parts bad) = (sType, Some e) →
  writeStructFields p (StructOf n (before ++ bad :: after)) w =
    match write_all w (map (λ f, field_row p f (cell f)) before) with
    | (w', None) => (w', Return (Some e))
    | (w', Some refused) => (w', Return (Some refused))
    end.
Proof.
  intros Hflat Hbad. revert w. induction Hflat as [|f rest Hf _ IH]; intros w.
  - simpl. rewrite writeStructField_unfold, Hbad. done.
  - rewrite <- app_comm_cons, writeStructFields_cons,
      (writeStructField_single_row _ _ _ Hf). simpl.
    destruct (Write w _) as [w' [e'|]]; [done|]. apply IH.
Qed.

Lemma unsupported_field_stops_walk_witness :
  writeStructFields "" (StructOf "" [plain_field; index_field; tagged_field]) blank =
    (mkTape ["| Hello | string  |  |" +:+ LF] [],
     Return (Some "unsupported field type ")).
Proof.
  rewrite (unsupported_field_stops_walk "" "" [plain_field] [tagged_field] index_field
             "" "unsupported field type " blank).
  - reflexivity.
  - repeat constructor.
  - reflexivity.
Defined.

(** X6: the walk panics, without writing, on a type under which there is no
    struct; hence a field whose cell reads [Array] over elements that are not
    structs has its row written and then makes the walk panic. *)
Theorem array_of_scalars_panics {W : Type} `{Writer W}
    (p : string) (f : StructField) (k : ScalarKind) (n : string) (w : W) :
  structFieldType (Type_ f) (field_parts f) = ("Array", None) →
  innermost (Type_ f) = Scalar k n →
  writeStructFields p (Type_ f) w = (w, Panic) ∧
  writeStructField p f w =
    match Write w (field_row p f "Array") with
    | (w', None) => (w', Panic)
    | (w', Some refused) => (w', Return (Some refused))
    end.
Proof.
  intros Hcls Hin.
  assert (∀ q (w0 : W), writeStructFields q (Type_ f) w0 = (w0, Panic)) as Hpanic.
  { intros q w0. by rewrite writeStructFields_innermost, Hin. }
  split; [apply Hpanic|].
  rewrite writeStructField_unfold, Hcls.
  destruct (Write w _) as [w' [e|]]; [done|]. simpl. apply Hpanic.
Qed.

Lemma array_of_scalars_panics_witness :
  writeStructFields "" (StructOf "" [plain_field; tags_field; tagged_field]) blank =
    (mkTape ["| Hello | string  |  |" +:+ LF; "| Tags | Array  |  |" +:+ LF] [], Panic) ∧
  writeStructField "" tags_field blank = (mkTape ["| Tags | Array  |  |" +:+ LF] [], Panic).
Proof.
  split; [reflexivity|].
  destruct (array_of_scalars_panics "" tags_field String_ "string" blank) as [_ Hrun];
    [reflexivity | reflexivity |].
  rewrite Hrun. reflexivity.
Defined.


(** X7: [WriteStructTable] renders a pointer, slice, array, map or channel
    type, however nested, as the struct type beneath it. *)
Theorem WriteStructTable_innermost {W : Type} `{Writer W} (t : rtype) (w : W) :
  WriteStructTable t w = WriteStructTable (innermost t) w.
Proof.
  unfold WriteStructTable.
  destruct (Write w table_header) as [w' [e|]]; [done|].
  rewrite writeStructFields_innermost, innermost_unwrap_pointers.
  by rewrite unwrap_pointers_innermost.
Qed.

(** X8: an error returned by [WriteStructTable] is either the refusal of an
    unsupported field type or an error that a [Write] of the destination
    returned; the renderer has no other source of errors. *)
Theorem WriteStructTable_error_origin {W : Type} `{Writer W}
    (t : rtype) (w w' : W) (e : error) :
  WriteStructTable t w = (w', Return (Some e)) →
  (∃ n, e = "unsupported field type " +:+ n) ∨
  (∃ w0 chunk w1, Write w0 chunk = (w1, Some e)).
Proof.
  unfold WriteStructTable.
  destruct (Write w table_header) as [w1 [e1|]] eqn:Hw.
  - intros [= <- <-]. right. by eexists _, _, _.
  - apply writeStructFields_error_origin.
Qed.

Lemma WriteStructTable_error_origin_witness :
  WriteStructTable example_type (failing_at 3 "disk full")
    = (mkTape [table_header;
               "| Hello | string  | hello is a fine field |" +:+ LF;
               "| World | number  |  |" +:+ LF] [], Return (Some "disk full")) ∧
  ((∃ n, "disk full" = "unsupported field type " +:+ n) ∨
   (∃ (w0 : Tape) chunk w1, Write w0 chunk = (w1, Some "disk full"))).
Proof.
  split; [reflexivity|].
  apply (WriteStructTable_error_origin example_type (failing_at 3 "disk full")
           (mkTape [table_header;
                    "| Hello | string  | hello is a fine field |" +:+ LF;
                    "| World | number  |  |" +:+ LF] [])).
  reflexivity.
Defined.

(** X9: a field whose type, behind its pointers, is an unnamed struct type
    or a struct type under the [embed] flag has the cell [Object]; after its
    row the fields of that struct are walked under the prefix
    [prefix+name+"."]. *)
Theorem embedded_struct_is_walked {W : Type} `{Writer W}
    (p : string) (f : StructField) (name : string) (fields : list StructField) (w : W) :
  unwrap_pointers (Type_ f) = StructOf name fields →
  name = "" ∨ contains (field_parts f) "embed" = true →
  writeStructField p f w =
    match Write w (field_row p f "Object") with
    | (w', None) =>
        writeStructFields ((p +:+ structFieldName f (field_parts f)) +:+ ".")
                          (StructOf name fields) w'
    | (w', Some refused) => (w', Return (Some refused))
    end.
Proof.
  intros Hty Hobj.
  assert (structFieldType (Type_ f) (field_parts f) = ("Object", None)) as Hcls.
  { rewrite structFieldType_unwrap, Hty. simpl.
    destruct Hobj as [-> | ->]; [done|]. by rewrite orb_true_r. }
  rewrite writeStructField_unfold, Hcls.
  destruct (Write w _) as [w' [e|]]; [done|]. simpl.
  rewrite writeStructFields_innermost, <- innermost_unwrap_pointers, Hty.
  done.
Qed.

Lemma embedded_struct_is_walked_witness :
  writeStructField "" (mkField "In" (Composite Ptr "" Inner) [("json", "inner,embed")]) blank
    = (mkTape ["| inner | Object  |  |" +:+ LF; "| inner.X | number  |  |" +:+ LF] [],
       Return None).
Proof.
  rewrite (embedded_struct_is_walked ""
             (mkField "In" (Composite Ptr "" Inner) [("json", "inner,embed")])
             "Inner" [mkField "X" (Scalar Int "int") []] blank).
  - reflexivity.
  - reflexivity.
  - right. reflexivity.
Defined.

(** X10: a field whose cell reads [Array] and under whose type there is a
    struct has its row followed by the fields of that struct under the
    prefix [prefix+name+"[]."], whatever the nesting of slices, arrays and
    pointers between the field and the struct. *)
Theorem array_of_structs_is_walked {W : Type} `{Writer W}
    (p : string) (f : StructField) (name : string) (fields : list StructField) (w : W) :
  structFieldType (Type_ f) (field_parts f) = ("Array", None) →
  innermost (Type_ f) = StructOf name fields →
  writeStructField p f w =
    match Write w (field_row p f "Array") with
    | (w', None) =>
        writeStructFields ((p +:+ structFieldName f (field_parts f)) +:+ "[].")
                          (StructOf name fields) w'
    | (w', Some refused) => (w', Return (Some refused))
    end.
Proof.
  intros Hcls Hin. rewrite writeStructField_unfold, Hcls.
  destruct (Write w _) as [w' [e|]]; [done|]. simpl.
  by rewrite writeStructFields_innermost, Hin.
Qed.

Lemma array_of_structs_is_walked_witness :
  writeStructField ""
    (mkField "Rows" (Composite Slice "" (Composite Slice "" (Composite Ptr "" Inner))) [])
    blank
    = (mkTape ["| Rows | Array  |  |" +:+ LF; "| Rows[].X | number  |  |" +:+ LF] [],
       Return None).
Proof.
  rewrite (array_of_structs_is_walked ""
             (mkField "Rows" (Composite Slice "" (Composite Slice "" (Composite Ptr "" Inner))) [])
             "Inner" [mkField "X" (Scalar Int "int") []] blank); reflexivity.
Defined.

(** ** The recorder: bodies, transcripts and the wrapped transport *)

Section ExchangeFacts.
Context {W : Type} `{Writer W} `{NetHTTP}.

(** [writeBody] on a body that reads to its end and that the destination
    accepts. *)
Lemma writeBody_accepted (σ : World W) (a : nat) (s : Stream) (w' : W) :
  streams σ !! a = Some s →
  fault s = None →
  Write (sink σ) (pending s) = (w', None) →
  writeBody σ (Some a) =
    (mkWorld w' (<[a := mkStream "" None true]> (streams σ) ++ [NewReader (pending s)])
             (issued σ),
     Some (length (streams σ)), None).
Proof.
  intros Ha Hfault Hw. unfold writeBody, deref, write. rewrite Ha. simpl.
  rewrite Hfault. simpl. rewrite Hw. simpl.
  by rewrite list_insert_insert_eq, !length_insert.
Qed.

Lemma writeBody_absent (σ σ' : World W) (r' : option nat) (err : option error) :
  writeBody σ None = (σ', r', err) → r' = None.
Proof. by intros [= _ <- _]. Qed.

Lemma recordRequest_line (t : TransportMarkdownRecorder) (σ σ' : World W)
    (req req' : Request) (err : option error) :
  recordRequest t σ req = (σ', req', err) →
  Method req' = Method req ∧ RequestURI req' = RequestURI req ∧
  ReqHeader req' = ReqHeader req ∧ (ReqBody req = None → ReqBody req' = None).
Proof.
  unfold recordRequest.
  do 3 (destruct (write _ _) as [? [?|]]; [by intros [= _ <- _]|]).
  destruct (writeBody _ _) as [[σ4 body] [e|]] eqn:Hbody.
  { intros [= _ <- _]. simpl. repeat split. intros Hnone. rewrite Hnone in Hbody.
    by apply writeBody_absent in Hbody. }
  assert (ReqBody req = None → body = None) as Hkeep.
  { intros Hnone. rewrite Hnone in Hbody. by apply writeBody_absent in Hbody. }
  do 2 (destruct (write _ _) as [? [?|]]; [by intros [= _ <- _]|]).
  by intros [= _ <- _].
Qed.

Lemma recordResponse_line (t : TransportMarkdownRecorder) (σ σ' : World W)
    (res res' : Response) (err : option error) :
  recordResponse t σ res = (σ', res', err) →
  Proto res' = Proto res ∧ Status res' = Status res ∧ ResHeader res' = ResHeader res ∧
  (ResBody res = None → ResBody res' = None).
Proof.
  unfold recordResponse.
  do 3 (destruct (write _ _) as [? [?|]]; [by intros [= _ <- _]|]).
  destruct (writeBody _ _) as [[σ4 body] [e|]] eqn:Hbody.
  { intros [= _ <- _]. simpl. repeat split. intros Hnone. rewrite Hnone in Hbody.
    by apply writeBody_absent in Hbody. }
  assert (ResBody res = None → body = None) as Hkeep.
  { intros Hnone. rewrite Hnone in Hbody. by apply writeBody_absent in Hbody. }
  do 2 (destruct (write _ _) as [? [?|]]; [by intros [= _ <- _]|]).
  by intros [= _ <- _].
Qed.

End ExchangeFacts.

(** X11: when the body cannot be read to its end, [writeBody] returns the
    error of the read: nothing is written, the body field keeps referring to
    the original stream, which is left drained and is not closed, and no
    stream is created. *)
Theorem writeBody_read_error {W : Type} `{Writer W}
    (σ : World W) (a : nat) (s : Stream) (e : error) :
  streams σ !! a = Some s →
  fault s = Some e →
  writeBody σ (Some a) =
    (mkWorld (sink σ) (<[a := mkStream "" (Some e) (closed s)]> (streams σ)) (issued σ),
     Some a, Some e).
Proof.
  intros Ha Hfault. unfold writeBody, deref. rewrite Ha. simpl. by rewrite Hfault.
Qed.

Lemma writeBody_read_error_witness :
  writeBody broken_world (Some 0) =
    (mkWorld blank [mkStream "" (Some "reset") false] [], Some 0, Some "reset").
Proof.
  apply (writeBody_read_error broken_world 0 (mkStream "ab" (Some "reset") false) "reset");
    reflexivity.
Defined.

(** X12: for a request with a body that reads to its end, on a destination
    that accepts the six writes, the transcript is the preamble, the fence
    with the request line, the header block, the bytes of the body, the
    closing fence and the postamble, in that order; the original stream is
    closed and the request leaves with a fresh body holding the same
    bytes. *)
Theorem recordRequest_with_body {W : Type} `{Writer W} `{NetHTTP}
    (t : TransportMarkdownRecorder) (σ : World W) (req : Request)
    (a : nat) (s : Stream) (w' : W) :
  ReqBody req = Some a →
  streams σ !! a = Some s →
  fault s = None →
  write_all (sink σ)
    [RequestPreamble t;
     fence_open +:+ Method req +:+ " " +:+ RequestURI req +:+ LF;
     ReplaceAll (WriteSubset (ReqHeader req) (skipHeaders t (ReqHeader req))) CR "" +:+ LF;
     pending s;
     fence_close;
     RequestPostamble t] = (w', None) →
  recordRequest t σ req =
    (mkWorld w' (<[a := mkStream "" None true]> (streams σ) ++ [NewReader (pending s)])
             (issued σ),
     mkRequest (Method req) (RequestURI req) (ReqHeader req) (Some (length (streams σ))),
     None).
Proof.
  intros Hbody Ha Hfault Hall. simpl in Hall.
  unfold recordRequest, write at 1 2 3. simpl.
  destruct (Write (sink σ) _) as [w1 [?|]]; [done|]. simpl.
  destruct (Write w1 _) as [w2 [?|]]; [done|]. simpl.
  destruct (Write w2 _) as [w3 [?|]]; [done|]. simpl.
  destruct (Write w3 (pending s)) as [w4 [?|]] eqn:Hw4; [done|].
  rewrite Hbody.
  rewrite (writeBody_accepted (mkWorld w3 (streams σ) (issued σ)) a s w4 Ha Hfault Hw4).
  unfold write. simpl.
  destruct (Write w4 _) as [w5 [?|]]; [done|]. simpl.
  destruct (Write w5 _) as [w6 [?|]]; [done|]. by simplify_eq.
Qed.

Lemma recordRequest_with_body_witness :
  recordRequest recorder (world_with blank) example_request =
    (mkWorld (mkTape ["## Request" +:+ LF;
                      "```" +:+ LF +:+ "GET /x" +:+ LF;
                      "Content-Type: application/json" +:+ LF +:+ LF;
                      "abc";
                      LF +:+ "```" +:+ LF;
                      "that was the request" +:+ LF] [])
             [mkStream "" None true; NewReader "abc"] [],
     mkRequest "GET" "/x" example_headers (Some 1), None).
Proof.
  apply (recordRequest_with_body recorder (world_with blank) example_request 0
           (NewReader "abc")); reflexivity.
Defined.

(** X13: when the wrapped transport fails, [RoundTrip] returns its error and
    a nil response; the request has been handed to the transport once, and
    nothing is written after the recording of the request. *)
Theorem RoundTrip_transport_failure {W : Type} `{Writer W} `{NetHTTP}
    (t : TransportMarkdownRecorder) (σ σ1 : World W) (req req1 : Request)
    (objects : Streams) (e : error) :
  recordRequest t σ req = (σ1, req1, None) →
  transport t (streams σ1) req1 = (objects, Failed e) →
  RoundTrip t σ req =
    (mkWorld (sink σ1) objects (issued σ ++ [req1]), req1, (None, Some e)).
Proof.
  intros Hreq Hcall. unfold RoundTrip. rewrite Hreq, Hcall.
  by rewrite (recordRequest_issued _ _ _ _ _ _ Hreq).
Qed.

Lemma RoundTrip_transport_failure_witness :
  RoundTrip bare_recorder (mkWorld blank [] []) bodyless_request =
    (mkWorld (mkTape [""; "```" +:+ LF +:+ "GET /x" +:+ LF;
                      "Content-Type: application/json" +:+ LF +:+
                      "DATE: today" +:+ LF +:+ LF;
                      LF +:+ "```" +:+ LF; ""] [])
             [] [bodyless_request],
     bodyless_request, (None, Some "unreachable")).
Proof.
  apply (RoundTrip_transport_failure bare_recorder (mkWorld blank [] [])
           (mkWorld (mkTape [""; "```" +:+ LF +:+ "GET /x" +:+ LF;
                             "Content-Type: application/json" +:+ LF +:+
                             "DATE: today" +:+ LF +:+ LF;
                             LF +:+ "```" +:+ LF; ""] []) [] [])
           bodyless_request bodyless_request [] "unreachable").
  - vm_compute. reflexivity.
  - reflexivity.
Defined.

(** X14: [RoundTrip] hands the request to the wrapped transport at most
    once: not at all when the recording of the request returns an error,
    which is then the result, and exactly once otherwise, the request being
    the one the recording left. *)
Theorem RoundTrip_issues_at_most_once {W : Type} `{Writer W} `{NetHTTP}
    (t : TransportMarkdownRecorder) (σ σ' : World W) (req req' : Request)
    (out : option Response * option error) :
  RoundTrip t σ req = (σ', req', out) →
  req' = (recordRequest t σ req).1.2 ∧
  match (recordRequest t σ req).2 with
  | Some e => issued σ' = issued σ ∧ out = (None, Some e)
  | None => issued σ' = issued σ ++ [req']
  end.
Proof.
  unfold RoundTrip.
  destruct (recordRequest t σ req) as [[σ1 req1] [e|]] eqn:Hreq; simpl.
  - intros [= <- <- <-]. split; [done|]. split; [|done].
    by eapply recordRequest_issued.
  - pose proof (recordRequest_issued _ _ _ _ _ _ Hreq) as Hi.
    destruct (transport t _ _) as [objects [resp|e]].
    + destruct (recordResponse _ _ _) as [[σ3 resp'] [e|]] eqn:Hres;
        apply recordResponse_issued in Hres; simpl in Hres;
        intros [= <- <- <-]; by rewrite Hres, Hi.
    + intros [= <- <- <-]. simpl. by rewrite Hi.
Qed.

Lemma RoundTrip_issues_at_most_once_witness :
  let run := RoundTrip recorder (world_with (failing_at 1 "disk full")) example_request in
  issued run.1.1 = [] ∧ run.2 = (None, Some "disk full").
Proof.
  intros run.
  destruct (RoundTrip_issues_at_most_once recorder
              (world_with (failing_at 1 "disk full")) run.1.1
              example_request run.1.2 run.2) as [_ Hissued].
  - vm_compute. reflexivity.
  - exact Hissued.
Defined.

(** X15: a response that [RoundTrip] returns carries the protocol, the
    status and the headers of the response of the wrapped transport, and the
    request leaves with its method, target and headers unchanged; recording
    changes nothing but the body fields. *)
Theorem RoundTrip_keeps_lines_and_headers {W : Type} `{Writer W} `{NetHTTP}
    (t : TransportMarkdownRecorder) (σ σ' : World W) (req req' : Request)
    (r : Response) (err : option error) :
  RoundTrip t σ req = (σ', req', (Some r, err)) →
  err = None ∧
  Method req' = Method req ∧ RequestURI req' = RequestURI req ∧
  ReqHeader req' = ReqHeader req ∧
  ∃ objects resp,
    transport t (streams (recordRequest t σ req).1.1) req' = (objects, Responded resp) ∧
    Proto r = Proto resp ∧ Status r = Status resp ∧ ResHeader r = ResHeader resp.
Proof.
  unfold RoundTrip.
  destruct (recordRequest t σ req) as [[σ1 req1] [e|]] eqn:Hreq; [done|]. simpl.
  apply recordRequest_line in Hreq as (Hm & Hu & Hh & _).
  destruct (transport t _ _) as [objects [resp|e]] eqn:Hcall; [|done].
  destruct (recordResponse _ _ _) as [[σ3 resp'] [e|]] eqn:Hres; [done|].
  apply recordResponse_line in Hres as (Hp & Hs & Hr & _).
  intros [= <- <- <- <-]. repeat (split; [done|]).
  by exists objects, resp.
Qed.

Lemma RoundTrip_keeps_lines_and_headers_witness :
  let run := RoundTrip recorder (world_with blank) example_request in
  run.2 = (Some (mkResponse "HTTP/1.1" "200 OK"
                   {[ "Content-Length" := ["4"]; "Date" := ["today"] ]} (Some 3)), None) ∧
  Method run.1.2 = "GET" ∧ RequestURI run.1.2 = "/x" ∧ ReqHeader run.1.2 = example_headers.
Proof.
  intros run.
  destruct (RoundTrip_keeps_lines_and_headers recorder (world_with blank) run.1.1
              example_request run.1.2
              (mkResponse "HTTP/1.1" "200 OK"
                 {[ "Content-Length" := ["4"]; "Date" := ["today"] ]} (Some 3)) None)
    as (_ & Hm & Hu & Hh & _).
  - vm_compute. reflexivity.
  - split; [vm_compute; reflexivity|]. split; [exact Hm|]. split; [exact Hu | exact Hh].
Defined.

(** ** Closed instances for the recording lemmas above *)

Lemma RoundTrip_request_error_witness :
  RoundTrip recorder (world_with (failing_at 1 "disk full")) example_request =
    (mkWorld (mkTape ["## Request" +:+ LF] []) [NewReader "abc"] [],
     example_request, (None, Some "disk full")) ∧
  issued (mkWorld (mkTape ["## Request" +:+ LF] []) [NewReader "abc"] [])
    = issued (world_with (failing_at 1 "disk full")).
Proof.
  apply (RoundTrip_request_error recorder (world_with (failing_at 1 "disk full"))).
  vm_compute. reflexivity.
Defined.

Lemma writeBody_refused_witness :
  writeBody (world_with (failing_at 0 "disk full")) (Some 0) =
    (mkWorld blank [mkStream "" None false] [], Some 0, None).
Proof.
  apply (writeBody_refused (world_with (failing_at 0 "disk full")) 0 (NewReader "abc")
           blank "disk full"); reflexivity.
Defined.

Lemma recordRequest_without_body_witness :
  recordRequest recorder (mkWorld (failing_at 2 "disk full") [] []) bodyless_request =
    (mkWorld (mkTape ["## Request" +:+ LF; "```" +:+ LF +:+ "GET /x" +:+ LF] []) [] [],
     bodyless_request, Some "disk full").
Proof.
  rewrite (recordRequest_without_body recorder (mkWorld (failing_at 2 "disk full") [] [])
             bodyless_request); reflexivity.
Defined.

Lemma recordResponse_without_body_witness :
  recordResponse recorder (mkWorld blank [] [])
                 (mkResponse "HTTP/1.1" "204 No Content" {[ "Date" := ["today"] ]} None) =
    (mkWorld (mkTape ["## Response" +:+ LF;
                      "```" +:+ LF +:+ "HTTP/1.1 204 No Content" +:+ LF;
                      LF; LF +:+ "```" +:+ LF; "that was the response" +:+ LF] []) [] [],
     mkResponse "HTTP/1.1" "204 No Content" {[ "Date" := ["today"] ]} None, None).
Proof.
  rewrite (recordResponse_without_body recorder (mkWorld blank [] [])
             (mkResponse "HTTP/1.1" "204 No Content" {[ "Date" := ["today"] ]} None));
    reflexivity.
Defined.

(** ** The exclusion map *)

(** X20: with a filter installed, a name is excluded exactly when the header
    map has it and the filter accepts it with its values; the entries kept
    for writing are the headers the filter does not accept; and a line is
    written exactly for each value of each such header whose name
    [net/http] takes for a field name. *)
Theorem skipHeaders_excludes_what_the_filter_accepts `{NetHTTP}
    (t : TransportMarkdownRecorder) (skipper : HeadersSkipper) (h : Header) :
  Skipper t = Some skipper →
  (∀ k, excluded (skipHeaders t h) k = true ↔ ∃ v, h !! k = Some v ∧ skipper k v = true) ∧
  (∀ k vs, (k, vs) ∈ sortedKeyValues h (skipHeaders t h) ↔
           h !! k = Some vs ∧ skipper k vs = false) ∧
  (∀ line, line ∈ header_lines h (skipHeaders t h) ↔
           ∃ k vs v, h !! k = Some vs ∧ v ∈ vs ∧ skipper k vs = false ∧
                     ValidHeaderFieldName k = true ∧
                     line = k +:+ ": " +:+ headerValue v +:+ String CR LF).
Proof.
  intros Hsk.
  assert (∀ k vs, (k, vs) ∈ sortedKeyValues h (skipHeaders t h) ↔
                  h !! k = Some vs ∧ skipper k vs = false) as Hkept.
  { intros k vs. rewrite elem_of_sortedKeyValues. simpl. split.
    - intros [Hk Hno]. split; [done|].
      destruct (skipper k vs) eqn:Hacc; [|done].
      assert (excluded (skipHeaders t h) k = true)
        by (apply (excluded_skipHeaders t skipper h k Hsk); by exists vs).
      congruence.
    - intros [Hk Hno]. split; [done|].
      destruct (excluded (skipHeaders t h) k) eqn:Hyes; [|done].
      apply (excluded_skipHeaders t skipper h k Hsk) in Hyes as (v & Hv & Hacc).
      congruence. }
  split; [intros k; by apply excluded_skipHeaders|]. split; [done|].
  intros line. unfold header_lines. rewrite list_elem_of_In, in_concat. split.
  - intros (lines & Hlines & Hline).
    apply in_map_iff in Hlines as ([k vs] & <- & Hkv).
    apply list_elem_of_In, Hkept in Hkv as [Hk Hno].
    unfold entry_lines in Hline. simpl in Hline.
    destruct (ValidHeaderFieldName k) eqn:Hvalid; [|done].
    apply in_map_iff in Hline as (v & <- & Hv).
    exists k, vs, v. by rewrite list_elem_of_In.
  - intros (k & vs & v & Hk & Hv & Hno & Hvalid & ->).
    exists (entry_lines (k, vs)). split.
    + apply in_map_iff. exists (k, vs). split; [done|].
      apply list_elem_of_In, Hkept. done.
    + unfold entry_lines. simpl. rewrite Hvalid.
      apply in_map_iff. exists v. split; [done|]. by apply list_elem_of_In.
Qed.

Lemma skipHeaders_excludes_what_the_filter_accepts_witness :
  excluded (skipHeaders recorder example_headers) "DATE" = true ∧
  sortedKeyValues example_headers (skipHeaders recorder example_headers)
    = [("Content-Type", ["application/json"])].
Proof.
  destruct (skipHeaders_excludes_what_the_filter_accepts recorder (SkipHeaders ["Date"])
              example_headers eq_refl) as [Hex _].
  split; [|vm_compute; reflexivity].
  apply Hex. exists ["today"]. split; reflexivity.
Defined.

(** X21: [SkipHeaders] over an empty list accepts nothing, over two lists put
    together it accepts what either accepts, and it accepts every name of
    its own list. *)
Theorem SkipHeaders_lists `{CaseFolding} (s1 s2 : list string) (header : string)
    (value : list string) :
  SkipHeaders [] header value = false ∧
  SkipHeaders (s1 ++ s2) header value
    = SkipHeaders s1 header value || SkipHeaders s2 header value ∧
  (header ∈ s1 → SkipHeaders s1 header value = true).
Proof.
  split; [done|]. split.
  - induction s1 as [|hdr rest IH]; simpl; [done|].
    by destruct (EqualFold hdr header).
  - intros Hin. by apply (SkipHeaders_ASCII_case s1 header).
Qed.

(** X22: a filter over the empty list, as [WithSkipHeaders()] installs it,
    gives an empty exclusion map rather than a nil one, and the same entries
    are written as without a filter. *)
Theorem WithSkipHeaders_nothing `{CaseFolding} (t : TransportMarkdownRecorder) (h : Header) :
  skipHeaders (WithSkipHeaders t []) h = Some ∅ ∧
  sortedKeyValues h (skipHeaders (WithSkipHeaders t []) h) = sortedKeyValues h None.
Proof.
  assert (skipHeaders (WithSkipHeaders t []) h = Some ∅) as Hmap.
  { unfold skipHeaders. simpl. f_equal. by induction (map_to_list h). }
  by rewrite Hmap.
Qed.

